(** * China_Lobby: the derivation of the dashboard's columns

    A shallow embedding of the column-deriving code of [streamlit_json.py]
    and [streamlit_app.py]: the helper functions that turn the nested cells
    of a flattened filing (lobbying activities, foreign entities, registrant
    description, document URL, filing year) into the displayed columns, and
    the filters and counts the two dashboards apply to the table.

    Python values are an inductive type, Python's exceptions are the error
    side of a [result] monad, and each helper is transcribed statement by
    statement, so that an exception is raised in the embedding where the
    interpreter raises it.  The two files define helpers of the same name;
    they live in the modules [Json] and [App]. *)

From Stdlib Require Import Ascii String ZArith.
From stdpp Require Import base option list strings pretty gmap.

Set Warnings "-register-all".

Local Open Scope string_scope.
Local Open Scope list_scope.

(** ** Python values *)

(** What [json.load] produces, plus what pandas puts in a cell.  A float is
    carried as the text of its [repr] (["nan"] for the NaN that pandas
    stores in a cell whose key is absent in the record): the code only
    formats floats, tests them for truth and tests them for NaN.  A [dict]
    is the list of its items in insertion order.

    Text is ASCII: the functions of [Str] are Python's on text whose codes
    are all below 128 ([Str.is_ascii]).  They leave codes from 128 on as
    they are and take them for printable characters without case, where
    Python knows more letters and more white space; a statement that holds
    of the code on ASCII text only says so. *)
Inductive value : Type :=
  | VNone
  | VBool (b : bool)
  | VInt (z : Z)
  | VFloat (r : string)
  | VStr (s : string)
  | VList (l : list value)
  | VDict (d : list (string * value)).

Definition NaN : value := VFloat "nan".

(** ** Exceptions *)

Inductive exn : Type :=
  | TypeError
  | AttributeError
  | KeyError
  | ValueError
  | OverflowError.

Inductive result (A : Type) : Type :=
  | Ok (a : A)
  | Raise (e : exn).
Arguments Ok {A} a.
Arguments Raise {A} e.

#[global] Instance result_ret : MRet result := fun _ a => Ok a.
#[global] Instance result_bind : MBind result := fun _ _ f m =>
  match m with
  | Ok a => f a
  | Raise e => Raise e
  end.

Definition returns {A} (m : result A) : Prop := exists a, m = Ok a.
Definition raises {A} (m : result A) : Prop := exists e, m = Raise e.

(** ** Strings *)

Module Str.

Local Open Scope nat_scope.

Definition code (c : ascii) : nat := nat_of_ascii c.

(** [str.isspace] on ASCII: tab to carriage return, the four separators
    28 to 31, and the space. *)
Definition isspace (c : ascii) : bool :=
  let n := code c in
  ((9 <=? n) && (n <=? 13)) || ((28 <=? n) && (n <=? 31)) || (n =? 32).

Definition isupper (c : ascii) : bool :=
  let n := code c in (65 <=? n) && (n <=? 90).

Definition islower (c : ascii) : bool :=
  let n := code c in (97 <=? n) && (n <=? 122).

Definition lower_char (c : ascii) : ascii :=
  if isupper c then ascii_of_nat (code c + 32) else c.

Definition upper_char (c : ascii) : ascii :=
  if islower c then ascii_of_nat (code c - 32) else c.

Fixpoint lower (s : string) : string :=
  match s with
  | EmptyString => EmptyString
  | String c s' => String (lower_char c) (lower s')
  end.

(** [str.capitalize]: the first character in upper case, the rest in
    lower case. *)
Definition capitalize (s : string) : string :=
  match s with
  | EmptyString => EmptyString
  | String c s' => String (upper_char c) (lower s')
  end.

Fixpoint lstrip (s : string) : string :=
  match s with
  | EmptyString => EmptyString
  | String c s' => if isspace c then lstrip s' else s
  end.

Fixpoint rstrip (s : string) : string :=
  match s with
  | EmptyString => EmptyString
  | String c s' =>
      match rstrip s' with
      | EmptyString => if isspace c then EmptyString else String c EmptyString
      | r => String c r
      end
  end.

(** [s.strip()] *)
Definition strip (s : string) : string := rstrip (lstrip s).

(** [bool(s)] *)
Definition nonempty (s : string) : bool :=
  match s with
  | EmptyString => false
  | String _ _ => true
  end.

(** [needle in hay] for two strings *)
Fixpoint contains (needle hay : string) : bool :=
  String.prefix needle hay ||
  match hay with
  | EmptyString => false
  | String _ hay' => contains needle hay'
  end.

(** [sep.join(l)] *)
Fixpoint join (sep : string) (l : list string) : string :=
  match l with
  | [] => EmptyString
  | [x] => x
  | x :: l' => x +:+ sep +:+ join sep l'
  end.

Definition hex_digit (n : nat) : ascii :=
  if n <? 10 then ascii_of_nat (48 + n) else ascii_of_nat (87 + n).

(** One character of [repr(s)], inside the quote [q]. *)
Definition repr_char (q c : ascii) : string :=
  let n := code c in
  if (n =? 92) then "\\"
  else if Ascii.eqb c q then String "\" (String q EmptyString)
  else if n =? 9 then "\t"
  else if n =? 10 then "\n"
  else if n =? 13 then "\r"
  else if (n <? 32) || (n =? 127)
    then String "\" (String "x" (String (hex_digit (n / 16))
                                (String (hex_digit (n mod 16)) EmptyString)))
  else String c EmptyString.

Fixpoint has_char (c : ascii) (s : string) : bool :=
  match s with
  | EmptyString => false
  | String c' s' => Ascii.eqb c c' || has_char c s'
  end.

Fixpoint repr_body (q : ascii) (s : string) : string :=
  match s with
  | EmptyString => EmptyString
  | String c s' => repr_char q c +:+ repr_body q s'
  end.

(** [repr(s)]: single quotes, unless the text has a single quote and no
    double quote. *)
Definition repr (s : string) : string :=
  let dq := ascii_of_nat 34 in
  let q := if has_char "'" s && negb (has_char dq s) then dq else "'"%char in
  String q (repr_body q s +:+ String q EmptyString).

(** The texts within ASCII, on which the functions above are Python's. *)
Fixpoint is_ascii (s : string) : bool :=
  match s with
  | EmptyString => true
  | String c s' => (code c <? 128) && is_ascii s'
  end.

End Str.

(** ** The operations of Python the helpers use *)

Module Py.

(** [isinstance(v, list)] *)
Definition is_list (v : value) : bool :=
  match v with
  | VList _ => true
  | _ => false
  end.

(** [isinstance(v, str)] *)
Definition is_str (v : value) : bool :=
  match v with
  | VStr _ => true
  | _ => false
  end.

(** [bool(v)] *)
Definition truthy (v : value) : bool :=
  match v with
  | VNone => false
  | VBool b => b
  | VInt z => negb (z =? 0)%Z
  | VFloat r => negb (String.eqb r "0.0" || String.eqb r "-0.0")
  | VStr s => Str.nonempty s
  | VList l => match l with [] => false | _ => true end
  | VDict d => match d with [] => false | _ => true end
  end.

(** The entry of a key in the items of a [dict] (whose keys are
    distinct). *)
Fixpoint lookup (k : string) (d : list (string * value)) : option value :=
  match d with
  | [] => None
  | (k', v) :: d' => if String.eqb k k' then Some v else lookup k d'
  end.

(** [x == needle] for a string [needle]: only an equal string is. *)
Definition eq_str (needle : string) (x : value) : bool :=
  match x with
  | VStr s => String.eqb s needle
  | _ => false
  end.

(** [needle in v]: a key of a [dict], an element of a [list], a substring
    of a [str]; the other values are not iterable. *)
Definition contains (needle : string) (v : value) : result bool :=
  match v with
  | VDict d => Ok (bool_decide (is_Some (lookup needle d)))
  | VList l => Ok (existsb (eq_str needle) l)
  | VStr s => Ok (Str.contains needle s)
  | _ => Raise TypeError
  end.

(** [v[k]] for a string [k]: the entry of a [dict], or [KeyError]; lists
    and strings take integer indices only, the rest is not
    subscriptable. *)
Definition getitem (v : value) (k : string) : result value :=
  match v with
  | VDict d =>
      match lookup k d with
      | Some x => Ok x
      | None => Raise KeyError
      end
  | _ => Raise TypeError
  end.

(** [v.get(k, default)]: a method of [dict] only. *)
Definition get (v : value) (k : string) (default : value) : result value :=
  match v with
  | VDict d =>
      match lookup k d with
      | Some x => Ok x
      | None => Ok default
      end
  | _ => Raise AttributeError
  end.

(** [v.strip()]: a method of [str] only. *)
Definition strip (v : value) : result string :=
  match v with
  | VStr s => Ok (Str.strip s)
  | _ => Raise AttributeError
  end.

(** [repr(v)] *)
Fixpoint repr (v : value) : string :=
  match v with
  | VNone => "None"
  | VBool true => "True"
  | VBool false => "False"
  | VInt z => pretty z
  | VFloat r => r
  | VStr s => Str.repr s
  | VList l => "[" +:+ Str.join ", " (map repr l) +:+ "]"
  | VDict d =>
      "{" +:+ Str.join ", "
                (map (fun kv => let '(k, x) := kv in
                                Str.repr k +:+ ": " +:+ repr x) d) +:+ "}"
  end.

(** [str(v)], which is also what an f-string puts for [{v}]. *)
Definition str (v : value) : string :=
  match v with
  | VStr s => s
  | _ => repr v
  end.

(** [sorted(set(l))] for strings. *)
Fixpoint insert_sorted (x : string) (l : list string) : list string :=
  match l with
  | [] => [x]
  | y :: l' =>
      match String.compare x y with
      | Lt => x :: l
      | Eq => l
      | Gt => y :: insert_sorted x l'
      end
  end.

Definition sorted_set (l : list string) : list string :=
  foldr insert_sorted [] l.

(** A [for] loop over [l] that updates a state and may raise. *)
Fixpoint for_each {S A} (body : S -> A -> result S) (s : S) (l : list A)
  : result S :=
  match l with
  | [] => Ok s
  | x :: l' => s' ← body s x; for_each body s' l'
  end.

(** A comprehension [[y for x in l for y in f(x)]] whose inner part may
    raise. *)
Fixpoint collect {A B} (f : A -> result (list B)) (l : list A)
  : result (list B) :=
  match l with
  | [] => Ok []
  | x :: l' => ys ← f x; zs ← collect f l'; mret (ys ++ zs)
  end.

End Py.

(** ** What the two files share *)

(** The test of the loops over activities,
    ["lobbyists" in activity and isinstance(activity["lobbyists"], list)],
    together with the list the inner loop then walks. *)
Definition lobbyists_of (activity : value) : result (list value) :=
  has ← Py.contains "lobbyists" activity;
  if has : bool then
    ls ← Py.getitem activity "lobbyists";
    mret (match ls with VList l => l | _ => [] end)
  else mret [].

(** [f"{lobbyist['lobbyist'].get('first_name', '')}
       {lobbyist['lobbyist'].get('last_name', '')}".strip()] *)
Definition display_name (lobbyist : value) : result string :=
  p ← Py.getitem lobbyist "lobbyist";
  first_name ← Py.get p "first_name" (VStr "");
  q ← Py.getitem lobbyist "lobbyist";
  last_name ← Py.get q "last_name" (VStr "");
  mret (Str.strip (Py.str first_name +:+ " " +:+ Py.str last_name)).

(** The lobbyist entries that the loops over the activities visit, in
    order. *)
Definition visited (activities : list value) : result (list value) :=
  Py.collect lobbyists_of activities.

(** [pd.notna(v)] on a cell that is not a list: false for [None] and for
    the float NaN.  On a list pandas answers with an array, one flag for
    each element, and the conditional then takes the truth value of the
    array: that case is outside the embedding, and the statements about the
    cells tested with [pd.notna] are about cells that are not lists. *)
Definition pd_notna (v : value) : bool :=
  match v with
  | VNone => false
  | VFloat r => negb (String.eqb r "nan")
  | _ => true
  end.

(** ** streamlit_json.py *)

Module Json.

(** One element of the list [extract_lobbyists] returns, the dict
    [{"name": k, "positions": list(v)}].  [list(v)] lists a set of strings
    in the order of the interpreter's hashes, which the program does not
    fix: the embedding keeps the set. *)
Record lobbyist : Type := Lobbyist { name : string; positions : gset string }.

(** [lobbyist_dict]: a [dict] from names to sets, in insertion order. *)
Definition lobbyist_dict : Type := list (string * gset string).

(** [name in d] *)
Definition has_key (k : string) (d : lobbyist_dict) : bool :=
  existsb (fun kv => String.eqb kv.1 k) d.

(** [d[name] = set()]: a new key goes last, an old one keeps its place. *)
Definition set_empty (k : string) (d : lobbyist_dict) : lobbyist_dict :=
  if has_key k d
  then map (fun kv => if String.eqb kv.1 k then (kv.1, ∅) else kv) d
  else d ++ [(k, ∅)].

(** [d[name].add(p)], for a key that is in [d]. *)
Definition add_position (k p : string) (d : lobbyist_dict) : lobbyist_dict :=
  map (fun kv => if String.eqb kv.1 k then (kv.1, {[ p ]} ∪ kv.2) else kv) d.

(** [covered_position and covered_position.lower() not in ["n/a", ""]] *)
Definition keeps (covered_position : string) : bool :=
  Str.nonempty covered_position &&
  negb (bool_decide (Str.lower covered_position ∈ ["n/a"; ""])).

(** [lobbyist.get("covered_position", "").strip()] *)
Definition trimmed_position (lobbyist : value) : result string :=
  cp ← Py.get lobbyist "covered_position" (VStr "");
  Py.strip cp.

(** Lines 27 to 31, the update of [lobbyist_dict] for one entry. *)
Definition update (d : lobbyist_dict) (name covered_position : string)
  : lobbyist_dict :=
  if Str.nonempty name then
    let d1 := if negb (has_key name d) then set_empty name d else d in
    if keeps covered_position
    then add_position name covered_position d1
    else d1
  else d.

(** The body of the inner loop of [extract_lobbyists]. *)
Definition merge (d : lobbyist_dict) (lobbyist : value) : result lobbyist_dict :=
  name ← display_name lobbyist;
  covered_position ← trimmed_position lobbyist;
  mret (update d name covered_position).

(** The body of the outer loop. *)
Definition merge_activity (d : lobbyist_dict) (activity : value)
  : result lobbyist_dict :=
  ls ← lobbyists_of activity;
  Py.for_each merge d ls.

Definition extract_lobbyists (activity_list : value) : result (list lobbyist) :=
  match activity_list with
  | VList activities =>
      d ← Py.for_each merge_activity [] activities;
      mret (map (fun kv => Lobbyist kv.1 kv.2) d)
  | _ => mret []
  end.

Definition extract_foreign_entities (entities_list : value)
  : result (list value) :=
  match entities_list with
  | VList es =>
      Py.collect (fun e => has ← Py.contains "name" e;
                           if has : bool
                           then n ← Py.getitem e "name"; mret [n]
                           else mret []) es
  | _ => mret []
  end.

Definition normalize_text (text : value) : value :=
  match text with
  | VStr s => VStr (Str.capitalize (Str.lower s))
  | _ => text
  end.

(** The lambda applied to the column [registrant_description]. *)
Definition registrant_type (x : value) : value :=
  if pd_notna x then normalize_text x else VStr "Unknown".

Definition dq : string := String (ascii_of_nat 34) EmptyString.

Definition link_head : string := "<a href=" +:+ dq.
Definition link_tail : string :=
  dq +:+ " target=" +:+ dq +:+ "_blank" +:+ dq +:+ ">View Filing</a>".

Definition create_hyperlink (url : value) : string :=
  if pd_notna url then link_head +:+ Py.str url +:+ link_tail else "".

End Json.

(** ** streamlit_app.py *)

Module App.

Definition extract_lobbyists (activity_list : value) : result (list string) :=
  match activity_list with
  | VList activities =>
      Py.collect (fun activity => ls ← lobbyists_of activity;
                                  mapM display_name ls) activities
  | _ => mret []
  end.

(** One lobbyist of the comprehension of [extract_covered_positions]: the
    filter [if lobbyist.get("covered_position")] runs first, then the
    element [str(lobbyist.get("covered_position", "")).strip()]. *)
Definition position_of (lobbyist : value) : result (list string) :=
  c ← Py.get lobbyist "covered_position" VNone;
  if Py.truthy c then
    cp ← Py.get lobbyist "covered_position" (VStr "");
    mret [Str.strip (Py.str cp)]
  else mret [].

(** [pos and pos.lower() != "n/a"] *)
Definition keeps (pos : string) : bool :=
  Str.nonempty pos && negb (String.eqb (Str.lower pos) "n/a").

Definition extract_covered_positions (activity_list : value)
  : result (list string) :=
  match activity_list with
  | VList activities =>
      positions ← Py.collect (fun activity => ls ← lobbyists_of activity;
                                              Py.collect position_of ls)
                             activities;
      mret (Py.sorted_set (List.filter keeps positions))
  | _ => mret []
  end.

(** [df["registrant_description"].fillna("Unknown")], on one cell. *)
Definition registrant_type (x : value) : value :=
  if pd_notna x then x else VStr "Unknown".

(** The lambda applied to the column [foreign_entities]. *)
Definition foreign_entities (x : value) : result (list value) :=
  match x with
  | VList es => mapM (fun e => Py.getitem e "name") es
  | _ => mret []
  end.

End App.

(** ** pandas: columns, filters and counts *)

Module Pd.

(** One cell of [s.isin(accepted)]: a missing cell is in no selection. *)
Definition isin {A} `{EqDecision A} (accepted : list A) (cell : option A)
  : bool :=
  match cell with
  | Some x => bool_decide (x ∈ accepted)
  | None => false
  end.

(** [df.explode(c)[c]]: one cell per element, and one missing cell for an
    empty list. *)
Definition explode {A} (col : list (list A)) : list (option A) :=
  concat (map (fun l => match l with
                        | [] => [None]
                        | _ => map Some l
                        end) col).

(** [s.dropna()] *)
Definition dropna {A} (col : list (option A)) : list (option A) :=
  List.filter (fun c => bool_decide (is_Some c)) col.

(** [s.value_counts()]: how often each value occurs; missing cells are
    not counted. *)
Definition count_cell {A} `{Countable A} (c : option A) (m : gmap A nat)
  : gmap A nat :=
  match c with
  | Some x => <[x := S (default 0 (m !! x))]> m
  | None => m
  end.

Definition value_counts {A} `{Countable A} (col : list (option A))
  : gmap A nat :=
  foldr count_cell ∅ col.

(** How often [x] is a cell of the column. *)
Definition occurrences {A} `{EqDecision A} (x : A) (col : list (option A))
  : nat :=
  length (List.filter (fun c => bool_decide (c = Some x)) col).

End Pd.

(** ** The filing year *)

(** A filing as [pd.json_normalize] lays it out: the cells of its row, by
    the name of the column.  *)
Definition filing : Type := list (string * value).

(** [df[c]]: the table has the column [c] when some filing has the key, and
    then a filing without the key has NaN in it; when no filing has the
    key, and so also for an empty document, the subscript raises
    KeyError. *)
Definition column (c : string) (filings : list filing) : result (list value) :=
  if existsb (fun f => bool_decide (is_Some (Py.lookup c f))) filings
  then Ok (map (fun f => default NaN (Py.lookup c f)) filings)
  else Raise KeyError.

Section FilingYear.

(** What a cast makes of a cell that holds a value is numpy's and pandas'
    own code, goes by the dtype pandas inferred for the whole column, and
    is not the same for the two casts: [to_int col v] stands for what
    [astype(int)] makes of the cell [v] of the column [col], and
    [to_Int64 col v] for what [astype("Int64")] makes of it, [Ok z] when
    the cell converts to [z] and [Raise e] when the cast rejects it. *)
Variable to_int : list value -> value -> result Z.
Variable to_Int64 : list value -> value -> result Z.

(** [s.astype(int)], streamlit_app.py: a missing cell has no integer
    (pandas raises its IntCastingNaNError, a ValueError). *)
Definition astype_int (col : list value) : result (list Z) :=
  mapM (fun v => if pd_notna v then to_int col v else Raise ValueError) col.

(** [s.astype("Int64")], streamlit_json.py: the nullable integers, where a
    missing cell becomes [<NA>]. *)
Definition astype_Int64 (col : list value) : result (list (option Z)) :=
  mapM (fun v => if pd_notna v
                 then z ← to_Int64 col v; mret (Some z)
                 else mret None) col.

(** streamlit_app.py, line 12: [df["filing_year"].astype(int)]. *)
Definition app_filing_year (filings : list filing) : result (list Z) :=
  col ← column "filing_year" filings;
  astype_int col.

(** streamlit_json.py, line 62: [df["filing_year"].astype("Int64")]. *)
Definition json_filing_year (filings : list filing)
  : result (list (option Z)) :=
  col ← column "filing_year" filings;
  astype_Int64 col.

End FilingYear.

(** ** The table and its filters *)

(** The columns of one row that the sidebar filters read.  The column
    [lobbyists] holds a list of names in streamlit_app.py and a list of
    merged lobbyists in streamlit_json.py; a missing year or name is
    [None]. *)
Record row (L : Type) : Type := Row {
  filing_year : option Z;
  client_name : option string;
  registrant_name : option string;
  foreign_entities : list string;
  lobbyists : L
}.
Arguments Row {L}.
Arguments filing_year {L}.
Arguments client_name {L}.
Arguments registrant_name {L}.
Arguments foreign_entities {L}.
Arguments lobbyists {L}.

Section Filters.

Context {L : Type}.
Implicit Type df : list (row L).

(** [df[mask]] *)
Definition select (mask : row L -> bool) df : list (row L) :=
  List.filter mask df.

(** [if chosen: df_filtered = df_filtered[mask]], for a multiselect. *)
Definition when_chosen {A} (chosen : list A) (mask : row L -> bool) df
  : list (row L) :=
  match chosen with
  | [] => df
  | _ => select mask df
  end.

Definition by_year (year_filter : list Z) df :=
  when_chosen year_filter
    (fun r => Pd.isin year_filter (filing_year r)) df.

Definition by_client (client_filter : list string) df :=
  when_chosen client_filter
    (fun r => Pd.isin client_filter (client_name r)) df.

Definition by_registrant (registrant_filter : list string) df :=
  when_chosen registrant_filter
    (fun r => Pd.isin registrant_filter (registrant_name r)) df.

(** [lambda x: any(entity in x for entity in foreign_filter)] *)
Definition by_foreign (foreign_filter : list string) df :=
  when_chosen foreign_filter
    (fun r => existsb (fun entity =>
                         bool_decide (entity ∈ foreign_entities r))
                      foreign_filter) df.

(** The filters of the sidebar that both files have. *)
Inductive choice : Type :=
  | Years (year_filter : list Z)
  | Clients (client_filter : list string)
  | Registrants (registrant_filter : list string)
  | Foreign (foreign_filter : list string).

Definition apply_choice (c : choice) df : list (row L) :=
  match c with
  | Years ys => by_year ys df
  | Clients cs => by_client cs df
  | Registrants rs => by_registrant rs df
  | Foreign fs => by_foreign fs df
  end.

End Filters.

(** streamlit_app.py also filters on one lobbyist, chosen in a selectbox
    whose first option is the empty text:
    [lambda x: lobbyist_filter in x]. *)
Definition by_lobbyist (lobbyist_filter : string) (df : list (row (list string)))
  : list (row (list string)) :=
  if Str.nonempty lobbyist_filter
  then select (fun r => bool_decide (lobbyist_filter ∈ lobbyists r)) df
  else df.

(** The filters in the order of streamlit_json.py, lines 85 to 93. *)
Definition json_filtered {L} (ys : list Z) (cs rs fs : list string)
  (df : list (row L)) : list (row L) :=
  by_foreign fs (by_registrant rs (by_client cs (by_year ys df))).

(** The filters in the order of streamlit_app.py, lines 79 to 92. *)
Definition app_filtered (ys : list Z) (cs rs fs : list string) (l : string)
  (df : list (row (list string))) : list (row (list string)) :=
  by_lobbyist l (by_foreign fs (by_registrant rs (by_client cs (by_year ys df)))).

(** ** Documents *)

(** A lobbyist entry with both names and a covered position, and an
    activity with a list of entries. *)
Definition entry (first_name last_name : string) (cp : value) : value :=
  VDict [("lobbyist", VDict [("first_name", VStr first_name);
                             ("last_name", VStr last_name)]);
         ("covered_position", cp)].

Definition activity (ls : list value) : value := VDict [("lobbyists", VList ls)].

(** The scenario of the specification in which one filing names Jane Doe in
    two activities, once as a senator and once as an advisor. *)
Definition jane_twice : list value :=
  [activity [entry "Jane" "Doe" (VStr "Senator")];
   activity [entry "Jane" "Doe" (VStr "Advisor")]].

(** A filing with an entry that has no name. *)
Definition jane_and_nobody : list value :=
  [activity [entry "Jane" "Doe" (VStr "Senator");
             entry "" "" (VStr "Advisor")]].

(** The entries and activities on which the merging variant is shown to
    return: a lobbyist entry that is an object with a [lobbyist] object and
    with a [covered_position] that is absent or text, and an activity that
    is an object whose [lobbyists], when a list, is a list of such entries.
    (The data model also has entries whose [covered_position] is null or
    not text; they are not among these.) *)
Definition well_formed_entry (e : value) : Prop :=
  exists d names,
    e = VDict d
    /\ Py.lookup "lobbyist" d = Some (VDict names)
    /\ (Py.lookup "covered_position" d = None
        \/ exists s, Py.lookup "covered_position" d = Some (VStr s)).

Definition well_formed_activity (a : value) : Prop :=
  exists d,
    a = VDict d
    /\ forall ls, Py.lookup "lobbyists" d = Some (VList ls) ->
                  Forall well_formed_entry ls.

(** Following the specification: a covered position is kept when it is not
    empty and not "n/a" in any case of its letters. *)
Definition cleaned (p : string) : Prop := p <> "" /\ Str.lower p <> "n/a".

(** An entry whose display name is empty. *)
Definition nameless (e : value) : bool :=
  match display_name e with
  | Ok EmptyString => true
  | _ => false
  end.

(** The invariant of the inner loop of [extract_lobbyists] in
    streamlit_json.py, where [seen] lists the name and the trimmed position
    of the entries visited so far: the keys are distinct, they are the
    names seen that are not empty, and the set of a key holds the positions
    seen with it that the test keeps. *)
Definition represents (d : Json.lobbyist_dict) (seen : list (string * string))
  : Prop :=
  NoDup (map fst d)
  /\ (forall k, In k (map fst d) <-> k <> "" /\ exists x, In (k, x) seen)
  /\ (forall k s, In (k, s) d ->
      forall x, x ∈ s <-> Json.keeps x = true /\ In (k, x) seen).


(** ** The columns for display of streamlit_json.py *)

Module Display.

(** Line 68, [", ".join([lobbyist["name"] for lobbyist in x])]. *)
Definition lobbyist_names (x : list Json.lobbyist) : string :=
  Str.join ", " (map Json.name x).

(** [[pos for l in x for pos in l["positions"]]]; the order inside one set
    is the one [elements] gives, and [sorted(set(...))] forgets it. *)
Definition all_positions (x : list Json.lobbyist) : list string :=
  concat (map (fun l => elements (Json.positions l)) x).

(** Line 69, [", ".join(sorted(set(...)))]. *)
Definition joined_positions (x : list Json.lobbyist) : string :=
  Str.join ", " (Py.sorted_set (all_positions x)).

(** Lines 69 and 72: the joined positions, with the empty text replaced by
    "None". *)
Definition covered_positions (x : list Json.lobbyist) : string :=
  let s := joined_positions x in
  if String.eqb s "" then "None" else s.

End Display.

(** ** The options of the sidebar *)

Module Sidebar.

(** [sorted(...)] of distinct years. *)
Fixpoint insert_year (y : Z) (l : list Z) : list Z :=
  match l with
  | [] => [y]
  | x :: l' =>
      match Z.compare y x with
      | Lt => y :: l
      | Eq => l
      | Gt => x :: insert_year y l'
      end
  end.

(** [sorted(df["filing_year"].dropna().unique())] *)
Definition year_options {L} (df : list (row L)) : list Z :=
  foldr insert_year [] (omap filing_year df).

(** A list of years in strictly increasing order. *)
Fixpoint increasing_years (l : list Z) : Prop :=
  match l with
  | [] => True
  | x :: l' => Forall (fun y => (x < y)%Z) l' /\ increasing_years l'
  end.

(** streamlit_app.py, line 75:
    [sorted(set([lobbyist for sublist in df["lobbyists"] for lobbyist in sublist]))] *)
Definition lobbyist_list (df : list (row (list string))) : list string :=
  Py.sorted_set (concat (map lobbyists df)).

(** Line 76, the options of the selectbox: [[""] + lobbyist_list]. *)
Definition lobbyist_options (df : list (row (list string))) : list string :=
  "" :: lobbyist_list df.


End Sidebar.

(** ** Names in the order of their first occurrence *)

(** The list without the later occurrences of its elements. *)
Fixpoint first_occurrences (names : list string) : list string :=
  match names with
  | [] => []
  | n :: rest =>
      n :: List.filter (fun m => negb (String.eqb m n)) (first_occurrences rest)
  end.

(** The names that are not empty, each once, in the order in which they
    first occur. *)
Definition first_seen (names : list string) : list string :=
  first_occurrences (List.filter Str.nonempty names).

(** A list of texts in strictly increasing order of [String.compare]. *)
Fixpoint increasing (l : list string) : Prop :=
  match l with
  | [] => True
  | x :: l' => Forall (fun y => String.compare x y = Lt) l' /\ increasing l'
  end.

(** An entry that is a JSON object. *)
Definition is_object (v : value) : Prop := exists d, v = VDict d.

(** For the examples, a value for the parameter of a cast: integer cells
    convert to themselves and every other cell is refused.  The examples
    use it on integer cells only. *)
Definition takes_integers (col : list value) (v : value) : result Z :=
  match v with
  | VInt z => Ok z
  | _ => Raise ValueError
  end.

(** Three filings for the examples: one with a year, one without the key
    and one whose year is null. *)
Definition three_filings : list filing :=
  [[("filing_year", VInt 2023); ("client_name", VStr "Acme Corp")];
   [("client_name", VStr "Globex")];
   [("filing_year", VNone)]].

(** A cell whose text, if it is text, is within ASCII. *)
Definition ascii_cell (x : value) : Prop :=
  forall s, x = VStr s -> Str.is_ascii s = true.

(** A table of three filings for the examples. *)
Definition sample_table : list (row (list string)) :=
  [Row (Some 2023%Z) (Some "Acme Corp") (Some "Law Firm LLP") ["Acme Holdings"]
       ["Jane Doe"; "John Roe"];
   Row None (Some "Globex") None [] ["John Roe"];
   Row (Some 2024%Z) None (Some "Law Firm LLP") ["Acme Holdings"; "Initech"]
       []].



(** * Properties *)

(** ** The scenarios of the specification, run on the code *)

Example jane_senator :
  Json.extract_lobbyists (VList [activity [entry "Jane" "Doe" (VStr "Senator")]])
  = Ok [Json.Lobbyist "Jane Doe" {[ "Senator" ]}].
Proof. vm_compute. reflexivity. Qed.

Example acme_corp :
  Json.extract_foreign_entities (VList [VDict [("name", VStr "Acme Corp")]])
  = Ok [VStr "Acme Corp"].
Proof. reflexivity. Qed.

Example position_kept_or_not :
  Json.keeps "N/A" = false /\ Json.keeps "" = false /\ Json.keeps "n/a" = false
  /\ Json.keeps "Advisor" = true.
Proof. repeat split. Qed.

Example law_firm :
  Json.registrant_type (VStr "law FIRM") = VStr "Law firm"
  /\ App.registrant_type (VStr "law FIRM") = VStr "law FIRM".
Proof. split; reflexivity. Qed.

(** ** A cell that is not a list *)

(** C3. When the cell [lobbying_activities] is not a list (the NaN of an
    absent key, the [None] of a null, or any other value that is not a
    list), the lobbyist derivations of both files return the empty list,
    and so they do not raise. *)
Theorem not_a_list_gives_no_lobbyists (v : value) :
  Py.is_list v = false ->
  Json.extract_lobbyists v = Ok []
  /\ App.extract_lobbyists v = Ok []
  /\ App.extract_covered_positions v = Ok [].
Proof.
  intros Hv. destruct v; simpl in Hv; try discriminate Hv; repeat split.
Qed.

Lemma not_a_list_gives_no_lobbyists_witness :
  Py.is_list NaN = false
  /\ Json.extract_lobbyists NaN = Ok []
  /\ App.extract_lobbyists NaN = Ok []
  /\ App.extract_covered_positions NaN = Ok [].
Proof.
  split; [reflexivity | apply (not_a_list_gives_no_lobbyists NaN); reflexivity].
Defined.

(** ** Foreign entities *)

Lemma foreign_entities_not_a_list (v : value) :
  Py.is_list v = false ->
  Json.extract_foreign_entities v = Ok [] /\ App.foreign_entities v = Ok [].
Proof.
  intros Hv. destruct v; simpl in Hv; try discriminate Hv; split; reflexivity.
Qed.

(** In streamlit_json.py the entries that are objects give their names in
    order, those without a name being skipped. *)
Lemma json_foreign_entities_skip (ds : list (list (string * value))) :
  Json.extract_foreign_entities (VList (map VDict ds))
  = Ok (omap (Py.lookup "name") ds).
Proof.
  unfold Json.extract_foreign_entities.
  induction ds as [|d ds IH]; simpl; [reflexivity|].
  rewrite IH. unfold Py.getitem.
  destruct (Py.lookup "name" d) as [n|]; reflexivity.
Qed.

(** C4. In streamlit_app.py the lambda subscripts every entry with
    ["name"], without the test streamlit_json.py makes: one entry without a
    name raises KeyError, and no list of names is returned. *)
Theorem app_foreign_entities_raises :
  App.foreign_entities
    (VList [VDict [("name", VStr "Acme Corp")]; VDict [("id", VInt 1)]])
  = Raise KeyError.
Proof. reflexivity. Qed.

(** ** A covered position that is null *)

(** In streamlit_app.py no value of [covered_position] makes the
    comprehension raise: a falsy one is filtered, any other is turned into
    text with [str]. *)
Lemma app_position_of_returns (d : list (string * value)) :
  returns (App.position_of (VDict d)).
Proof.
  unfold App.position_of, returns. simpl.
  destruct (Py.lookup "covered_position" d) as [c|]; simpl.
  - destruct (Py.truthy c); simpl; eauto.
  - eauto.
Qed.

Example app_null_position :
  App.extract_covered_positions (VList [activity [entry "Jane" "Doe" VNone]])
  = Ok [].
Proof. reflexivity. Qed.

(** C2. In streamlit_json.py [extract_lobbyists] calls [strip] on the
    covered position without turning it into text first: on an entry whose
    [covered_position] is null the call raises AttributeError, and the row
    has no result. *)
Theorem json_null_position_raises :
  Json.extract_lobbyists (VList [activity [entry "Jane" "Doe" VNone]])
  = Raise AttributeError.
Proof. reflexivity. Qed.

(** ** Text *)

Lemma append_nil (t : string) : "" +:+ t = t.
Proof. reflexivity. Qed.

Lemma append_cons (c : ascii) (s t : string) :
  String c s +:+ t = String c (s +:+ t).
Proof. reflexivity. Qed.

Lemma length_append_str (s t : string) :
  String.length (s +:+ t) = String.length s + String.length t.
Proof.
  induction s as [|c s IH]; [reflexivity|].
  rewrite append_cons. simpl. now rewrite IH.
Qed.

Lemma append_cancel_r (t s1 s2 : string) : s1 +:+ t = s2 +:+ t -> s1 = s2.
Proof.
  revert s2. induction s1 as [|c s1 IH]; intros [|c2 s2] H.
  - reflexivity.
  - apply (f_equal String.length) in H.
    rewrite !length_append_str in H. simpl in H. lia.
  - apply (f_equal String.length) in H.
    rewrite !length_append_str in H. simpl in H. lia.
  - rewrite !append_cons in H. injection H as -> H. f_equal. now apply IH.
Qed.

(** ** The link to the filing *)

(** The anchor keeps the text of the URL: two URLs with the same anchor are
    the same. *)
Lemma create_hyperlink_inj (s1 s2 : string) :
  Json.create_hyperlink (VStr s1) = Json.create_hyperlink (VStr s2) -> s1 = s2.
Proof.
  unfold Json.create_hyperlink. simpl. intros H.
  apply String.app_inj in H. now apply append_cancel_r in H.
Qed.

Example filing_link_of_url :
  Json.create_hyperlink (VStr "https://lda.senate.gov/filings/1")
  = "<a href="
    +:+ String (ascii_of_nat 34)
          ("https://lda.senate.gov/filings/1"
           +:+ String (ascii_of_nat 34)
                 (" target="
                  +:+ String (ascii_of_nat 34)
                        ("_blank"
                         +:+ String (ascii_of_nat 34) ">View Filing</a>"))).
Proof. reflexivity. Qed.

(** C7. On a cell that is not a list, [create_hyperlink] returns the empty
    text for a URL that is null ([None]) or absent (NaN).  For every other
    URL it returns the anchor made of [<a href=], a double quote (the
    character of code 34), the text of the URL as it is, a double quote,
    [ target=], the quoted [_blank], and [>View Filing</a>]; a URL that is
    text is its own text.  The link is empty exactly when the URL is null
    or absent. *)
Theorem filing_link_anchor (url : value) :
  Py.is_list url = false ->
  (url = VNone \/ url = VFloat "nan" -> Json.create_hyperlink url = "")
  /\ (url <> VNone -> url <> VFloat "nan" ->
      Json.create_hyperlink url
      = "<a href="
        +:+ String (ascii_of_nat 34)
              (Py.str url
               +:+ String (ascii_of_nat 34)
                     (" target="
                      +:+ String (ascii_of_nat 34)
                            ("_blank"
                             +:+ String (ascii_of_nat 34)
                                   ">View Filing</a>"))))
  /\ (forall s, url = VStr s ->
      Json.create_hyperlink url
      = "<a href="
        +:+ String (ascii_of_nat 34)
              (s +:+ String (ascii_of_nat 34)
                       (" target="
                        +:+ String (ascii_of_nat 34)
                              ("_blank"
                               +:+ String (ascii_of_nat 34)
                                     ">View Filing</a>"))))
  /\ (Json.create_hyperlink url = "" <-> url = VNone \/ url = VFloat "nan").
Proof.
  intros _.
  assert (pd_notna url = false <-> url = VNone \/ url = VFloat "nan") as Hna.
  { destruct url; simpl; try (split; [discriminate | intros [?|?]; discriminate]).
    - split; auto.
    - rewrite negb_false_iff, String.eqb_eq. split.
      + intros ->. now right.
      + intros [? | [= ->]]; [discriminate | reflexivity]. }
  assert (forall v, pd_notna v = true ->
            Json.create_hyperlink v
            = "<a href="
              +:+ String (ascii_of_nat 34)
                    (Py.str v
                     +:+ String (ascii_of_nat 34)
                           (" target="
                            +:+ String (ascii_of_nat 34)
                                  ("_blank"
                                   +:+ String (ascii_of_nat 34)
                                         ">View Filing</a>")))) as Hlink.
  { intros v Hv. unfold Json.create_hyperlink. rewrite Hv.
    unfold Json.link_head, Json.link_tail, Json.dq.
    rewrite !append_cons, !append_nil.
    generalize (Py.str v). intros t. reflexivity. }
  split; [|split; [|split]].
  - intros H. apply Hna in H. unfold Json.create_hyperlink. now rewrite H.
  - intros H1 H2. apply Hlink. destruct (pd_notna url); [reflexivity|].
    destruct (proj1 Hna eq_refl); contradiction.
  - intros s ->. now rewrite Hlink.
  - rewrite <- Hna. unfold Json.create_hyperlink.
    destruct (pd_notna url); [|split; reflexivity].
    split; [|discriminate]. unfold Json.link_head. rewrite append_cons.
    discriminate.
Qed.

Lemma filing_link_anchor_witness :
  Json.create_hyperlink VNone = ""
  /\ Json.create_hyperlink (VFloat "nan") = ""
  /\ Json.create_hyperlink (VStr "https://lda.senate.gov/filings/1")
     = "<a href="
       +:+ String (ascii_of_nat 34)
             ("https://lda.senate.gov/filings/1"
              +:+ String (ascii_of_nat 34)
                    (" target="
                     +:+ String (ascii_of_nat 34)
                           ("_blank"
                            +:+ String (ascii_of_nat 34)
                                  ">View Filing</a>"))).
Proof.
  split; [|split].
  - destruct (filing_link_anchor VNone eq_refl) as (H & _). apply H. now left.
  - destruct (filing_link_anchor (VFloat "nan") eq_refl) as (H & _).
    apply H. now right.
  - destruct (filing_link_anchor (VStr "https://lda.senate.gov/filings/1")
                eq_refl) as (_ & _ & H & _).
    exact (H _ eq_refl).
Defined.

(** ** The type of the registrant *)

(** C6, as the claim has it: a description that is the text "Unknown" gives
    the sentinel in streamlit_app.py, and one that is "UNKNOWN" gives it in
    streamlit_json.py, and neither is absent or null. *)
Lemma sentinel_for_a_present_description :
  ~ (App.registrant_type (VStr "Unknown") = VStr "Unknown"
     <-> pd_notna (VStr "Unknown") = false)
  /\ ~ (Json.registrant_type (VStr "UNKNOWN") = VStr "Unknown"
        <-> pd_notna (VStr "UNKNOWN") = false).
Proof.
  split; intros [H _]; specialize (H eq_refl); discriminate H.
Qed.

(** C6, amended. On a cell that is not a list, an absent or null
    description gives "Unknown" in both files.  Any other description is returned as it is by streamlit_app.py;
    streamlit_json.py returns it in lower case with a capital first letter
    when it is text, and as it is when it is not.  So the sentinel is the
    result when the description is absent or null, and otherwise only for a
    description that this policy sends to "Unknown". *)
Theorem registrant_type_cases (x : value) :
  Py.is_list x = false ->
  (pd_notna x = false ->
   App.registrant_type x = VStr "Unknown"
   /\ Json.registrant_type x = VStr "Unknown")
  /\ (pd_notna x = true ->
      App.registrant_type x = x
      /\ (forall s, x = VStr s ->
          Json.registrant_type x = VStr (Str.capitalize (Str.lower s)))
      /\ (Py.is_str x = false -> Json.registrant_type x = x))
  /\ (App.registrant_type x = VStr "Unknown"
      <-> pd_notna x = false \/ x = VStr "Unknown")
  /\ (Json.registrant_type x = VStr "Unknown"
      <-> pd_notna x = false
          \/ exists s, x = VStr s /\ Str.capitalize (Str.lower s) = "Unknown").
Proof.
  intros _. unfold App.registrant_type, Json.registrant_type.
  split; [now intros -> |].
  split.
  { intros ->. split; [reflexivity|]. split.
    - now intros s ->.
    - destruct x; simpl; intros; try discriminate; reflexivity. }
  split.
  - destruct (pd_notna x) eqn:E.
    + split; [now right | intros [? | ?]; [discriminate | assumption]].
    + split; auto.
  - destruct (pd_notna x) eqn:E.
    + split.
      * intros H. right. destruct x; simpl in H; try discriminate H.
        injection H as H. eauto.
      * intros [? | (s & -> & Hs)]; [discriminate|]. simpl. now rewrite Hs.
    + split; auto.
Qed.

Lemma registrant_type_cases_witness :
  (App.registrant_type VNone = VStr "Unknown"
   /\ Json.registrant_type VNone = VStr "Unknown")
  /\ Json.registrant_type (VStr "LAW FIRM") = VStr "Law firm".
Proof.
  split.
  - apply (registrant_type_cases VNone); reflexivity.
  - destruct (registrant_type_cases (VStr "LAW FIRM") eq_refl) as (_ & H & _).
    destruct (H eq_refl) as (_ & Hs & _). apply (Hs "LAW FIRM" eq_refl).
Defined.

(** ** Filters *)

Section FilterLaws.

Context {L : Type}.
Implicit Type df : list (row L).

Lemma select_comm (p q : row L -> bool) df :
  select p (select q df) = select q (select p df).
Proof.
  unfold select. induction df as [|r df IH]; simpl; [reflexivity|].
  destruct (p r) eqn:Hp, (q r) eqn:Hq; simpl; rewrite ?Hp, ?Hq, IH; reflexivity.
Qed.

Lemma when_chosen_comm {A B} (xs : list A) (ys : list B) (p q : row L -> bool) df :
  when_chosen xs p (when_chosen ys q df) = when_chosen ys q (when_chosen xs p df).
Proof.
  destruct xs, ys; simpl; try reflexivity. apply select_comm.
Qed.

Lemma select_sublist (p : row L -> bool) df r :
  r ∈ select p df <-> r ∈ df /\ p r = true.
Proof.
  unfold select. rewrite !list_elem_of_In, List.filter_In. reflexivity.
Qed.

(** The year filter and the client filter, in the two orders. *)
Lemma year_then_client (ys : list Z) (cs : list string) df :
  by_client cs (by_year ys df) = by_year ys (by_client cs df).
Proof. apply when_chosen_comm. Qed.

(** C8. Any two of the sidebar filters (years, clients, registrants,
    foreign entities), each a test on its own column, give the same rows in
    the same order whichever is applied first. *)
Theorem filters_commute (c1 c2 : choice) df :
  apply_choice c1 (apply_choice c2 df) = apply_choice c2 (apply_choice c1 df).
Proof.
  destruct c1, c2; simpl;
    unfold by_year, by_client, by_registrant, by_foreign;
    apply when_chosen_comm.
Qed.

End FilterLaws.

(** The filter on one lobbyist of streamlit_app.py commutes with the others
    too. *)
Lemma lobbyist_filter_commutes (l : string) (c : choice)
  (df : list (row (list string))) :
  by_lobbyist l (apply_choice c df) = apply_choice c (by_lobbyist l df).
Proof.
  unfold by_lobbyist. destruct (Str.nonempty l); [|reflexivity].
  destruct c; simpl; unfold by_year, by_client, by_registrant, by_foreign;
    match goal with
    | |- context [when_chosen ?xs _ _] => destruct xs; simpl; try reflexivity
    end; apply select_comm.
Qed.

(** ** Counts *)

Section Counts.

Context {A : Type} `{Countable A}.

(** Exploding and dropping the missing cells leaves the elements of the
    lists, in order. *)
Lemma dropna_explode (col : list (list A)) :
  Pd.dropna (Pd.explode col) = map Some (concat col).
Proof.
  unfold Pd.dropna, Pd.explode.
  induction col as [|l col IH]; simpl; [reflexivity|].
  rewrite List.filter_app, IH, map_app. f_equal.
  destruct l as [|x l]; [reflexivity|].
  generalize (x :: l). intros k. induction k as [|y k IHk]; simpl;
    [reflexivity | now rewrite IHk].
Qed.

Lemma value_counts_lookup (col : list (option A)) (x : A) :
  Pd.value_counts col !! x
  = match Pd.occurrences x col with
    | O => None
    | S n => Some (S n)
    end.
Proof.
  unfold Pd.value_counts, Pd.occurrences.
  induction col as [|c col IH]; simpl; [apply lookup_empty|].
  destruct c as [y|]; simpl.
  - destruct (decide (y = x)) as [->|Hne].
    + rewrite lookup_insert_eq, IH, bool_decide_eq_true_2 by reflexivity.
      simpl. now destruct (length _).
    + rewrite lookup_insert_ne, IH by assumption.
      rewrite bool_decide_eq_false_2 by congruence. reflexivity.
  - apply IH.
Qed.

(** No value is listed with the count zero. *)
Lemma value_counts_positive (col : list (option A)) (x : A) (n : nat) :
  Pd.value_counts col !! x = Some n -> 0 < n.
Proof.
  rewrite value_counts_lookup. destruct (Pd.occurrences x col); [discriminate|].
  intros [= <-]. lia.
Qed.

(** A row whose list is empty changes no count. *)
Lemma empty_row_counts_nothing (col1 col2 : list (list A)) :
  Pd.value_counts (Pd.dropna (Pd.explode (col1 ++ [] :: col2)))
  = Pd.value_counts (Pd.dropna (Pd.explode (col1 ++ col2))).
Proof.
  rewrite !dropna_explode, !concat_app. reflexivity.
Qed.

(** C9. When every row of a column of lists holds the empty list, the
    count of the exploded column, missing cells dropped, is the empty
    mapping. *)
Theorem exploded_counts_of_empty_lists (col : list (list A)) :
  Forall (fun l => l = []) col ->
  Pd.value_counts (Pd.dropna (Pd.explode col)) = ∅.
Proof.
  intros Hcol. rewrite dropna_explode.
  assert (concat col = []) as ->; [|reflexivity].
  induction Hcol as [|l col -> _ IH]; simpl; [reflexivity | exact IH].
Qed.

End Counts.

Lemma exploded_counts_of_empty_lists_witness :
  Forall (fun l : list string => l = []) [[]; []; []]
  /\ Pd.value_counts (Pd.dropna (Pd.explode ([[]; []; []] : list (list string))))
     = ∅.
Proof.
  assert (Forall (fun l : list string => l = []) [[]; []; []]) as Hcol
    by (repeat constructor).
  split; [exact Hcol | apply (exploded_counts_of_empty_lists _ Hcol)].
Defined.

(** ** Loops that may raise *)

Lemma mapM_Ok {A B} (f : A -> result B) (l : list A) (k : list B) :
  mapM f l = Ok k <-> Forall2 (fun x y => f x = Ok y) l k.
Proof.
  revert k. induction l as [|x l IH]; intros k; simpl.
  - split.
    + intros [= <-]. constructor.
    + intros Hk. inversion Hk. reflexivity.
  - split.
    + destruct (f x) as [y|e] eqn:Hx; simpl; [|discriminate].
      destruct (mapM f l) as [k'|e] eqn:Hl; simpl; [|discriminate].
      intros [= <-]. constructor; [assumption | now apply IH].
    + intros Hk. inversion Hk as [|? y ? k' Hx Hl]; subst.
      rewrite Hx. simpl. apply IH in Hl. rewrite Hl. reflexivity.
Qed.

Lemma mapM_raises {A B} (f : A -> result B) (l : list A) :
  Exists (fun x => raises (f x)) l -> raises (mapM f l).
Proof.
  induction 1 as [x l [e He] | x l _ IH]; simpl.
  - rewrite He. now exists e.
  - destruct (f x) as [y|e]; simpl; [|now exists e].
    destruct IH as [e ->]. now exists e.
Qed.

Lemma mapM_returns {A B} (f : A -> result B) (l : list A) :
  Forall (fun x => returns (f x)) l -> returns (mapM f l).
Proof.
  induction 1 as [|x l [y Hy] _ [k Hk]]; simpl.
  - now exists [].
  - rewrite Hy, Hk. now exists (y :: k).
Qed.

(** ** The filing year *)

(** The column of years is there exactly when some filing has the key. *)
Lemma column_returns (c : string) (filings : list filing) :
  returns (column c filings)
  <-> Exists (fun f => is_Some (Py.lookup c f)) filings.
Proof.
  unfold column. rewrite Exists_exists.
  destruct (existsb (fun f => bool_decide (is_Some (Py.lookup c f))) filings)
    eqn:E.
  - split; [|intros _; eexists; reflexivity]. intros _.
    apply existsb_exists in E as (f & Hf & Hk). exists f.
    split; [now apply list_elem_of_In | now apply bool_decide_eq_true in Hk].
  - split; [intros [col Hcol]; discriminate|].
    intros (f & Hf & Hk). exfalso.
    assert (existsb (fun f => bool_decide (is_Some (Py.lookup c f))) filings
            = true) as E'.
    { apply existsb_exists. exists f.
      split; [now apply list_elem_of_In | now apply bool_decide_eq_true]. }
    congruence.
Qed.

Lemma column_Ok (c : string) (filings : list filing) (col : list value) :
  column c filings = Ok col ->
  col = map (fun f => default NaN (Py.lookup c f)) filings.
Proof.
  unfold column.
  destruct (existsb (fun f => bool_decide (is_Some (Py.lookup c f))) filings);
    [|discriminate].
  congruence.
Qed.

Lemma column_missing (c : string) (filings : list filing) :
  Forall (fun f => Py.lookup c f = None) filings ->
  column c filings = Raise KeyError.
Proof.
  intros Hnone. destruct (column c filings) as [col|e] eqn:E.
  - assert (returns (column c filings)) as Hr by now exists col.
    apply column_returns, Exists_exists in Hr as (f & Hf & [v Hv]).
    rewrite Forall_forall in Hnone. rewrite (Hnone f Hf) in Hv. discriminate.
  - unfold column in E.
    destruct (existsb (fun f => bool_decide (is_Some (Py.lookup c f))) filings);
      congruence.
Qed.

Section YearLaws.

Variable to_int : list value -> value -> result Z.
Variable to_Int64 : list value -> value -> result Z.

(** In streamlit_app.py one missing year makes the cast raise. *)
Lemma astype_int_missing (col : list value) (v : value) :
  v ∈ col -> pd_notna v = false -> raises (astype_int to_int col).
Proof.
  intros Hin Hv. apply mapM_raises, Exists_exists.
  exists v. split; [assumption|]. rewrite Hv. now exists ValueError.
Qed.

(** A row without a year passes no year filter. *)
Lemma no_year_not_selected {L} (ys : list Z) (df : list (row L)) (r : row L) :
  ys <> [] -> filing_year r = None -> r ∉ by_year ys df.
Proof.
  intros Hys Hr Hin. unfold by_year in Hin.
  destruct ys as [|y ys]; [congruence|]. simpl in Hin.
  apply select_sublist in Hin as [_ Hmask]. rewrite Hr in Hmask.
  discriminate Hmask.
Qed.

(** Missing years are not counted by [value_counts]. *)
Lemma no_year_not_counted (years : list (option Z)) :
  Pd.value_counts years = Pd.value_counts (Pd.dropna years).
Proof.
  unfold Pd.value_counts, Pd.dropna.
  induction years as [|[y|] years IH]; simpl; [reflexivity | | exact IH].
  now rewrite IH.
Qed.

Lemma astype_Int64_returns (col : list value) :
  Forall (fun v => pd_notna v = false \/ returns (to_Int64 col v)) col ->
  exists years,
    astype_Int64 to_Int64 col = Ok years
    /\ Forall2 (fun v y => if pd_notna v
                           then exists z, to_Int64 col v = Ok z /\ y = Some z
                           else y = None) col years.
Proof.
  intros Hcol.
  assert (returns (astype_Int64 to_Int64 col)) as [years Hyears].
  { apply mapM_returns. eapply Forall_impl; [exact Hcol|].
    intros v [Hv | [z Hz]]; simpl.
    - rewrite Hv. now exists None.
    - destruct (pd_notna v); [rewrite Hz; now exists (Some z) | now exists None]. }
  exists years. split; [assumption|].
  apply mapM_Ok in Hyears. eapply Forall2_impl; [exact Hyears|].
  intros v y Hy. simpl in Hy. destruct (pd_notna v).
  - destruct (to_Int64 col v) as [z|e]; simpl in Hy; [|discriminate].
    injection Hy as <-. eauto.
  - now injection Hy as <-.
Qed.

(** C5, amended.  In streamlit_json.py, when some filing has the key
    [filing_year] and every year that is there and not null is a value the
    cast takes, the cast to the nullable integers returns, with one cell
    for every filing in the order of the filings: a filing whose year is
    absent or null gets the missing integer, which adds nothing to the
    counts of years, and a row with it passes no year filter.  A year that
    is there and that the cast does not take makes the cast raise, and the
    load stops there; so does the subscript, with KeyError, when no filing
    has the key. *)
Theorem year_cast (filings : list filing) (col : list value) :
  column "filing_year" filings = Ok col ->
  (Forall (fun v => pd_notna v = false \/ returns (to_Int64 col v)) col ->
   exists years,
     json_filing_year to_Int64 filings = Ok years
     /\ Forall2 (fun f y =>
                   match Py.lookup "filing_year" f with
                   | Some v => if pd_notna v
                               then exists z, to_Int64 col v = Ok z /\ y = Some z
                               else y = None
                   | None => y = None
                   end) filings years
     /\ Pd.value_counts years = Pd.value_counts (Pd.dropna years))
  /\ (Exists (fun v => pd_notna v = true /\ raises (to_Int64 col v)) col ->
      raises (json_filing_year to_Int64 filings))
  /\ (forall others : list filing,
        Forall (fun f => Py.lookup "filing_year" f = None) others ->
        json_filing_year to_Int64 others = Raise KeyError)
  /\ (forall L (r : row L) ys df,
        filing_year r = None -> ys <> [] -> r ∉ by_year ys df).
Proof.
  intros Hcol. pose proof (column_Ok _ _ _ Hcol) as Hmap.
  split; [|split; [|split]].
  - intros Hok. destruct (astype_Int64_returns col Hok) as (years & Hy & Hcells).
    exists years. unfold json_filing_year. rewrite Hcol.
    split; [exact Hy|]. split; [|apply no_year_not_counted].
    revert Hcells. generalize (to_Int64 col). intros cast.
    rewrite Hmap. clear. intros Hcells.
    apply Forall2_fmap_l in Hcells.
    eapply Forall2_impl; [exact Hcells|]. intros f y. simpl.
    destruct (Py.lookup "filing_year" f) as [v|]; simpl; auto.
  - intros Hbad. unfold json_filing_year. rewrite Hcol.
    apply mapM_raises. eapply Exists_impl; [exact Hbad|].
    intros v [Hv [e He]]. simpl. rewrite Hv, He. now exists e.
  - intros others Hnone. unfold json_filing_year.
    now rewrite (column_missing _ _ Hnone).
  - intros L r ys df Hr Hys. now apply no_year_not_selected.
Qed.

End YearLaws.

(** C5, as the claim has it.  Whatever the casts make of the years that are
    there: in streamlit_app.py one filing without a year makes the cast
    raise, and in both files a document in which no filing has a year makes
    the subscript raise KeyError; the script stops there and no row is
    produced. *)
Lemma year_cast_aborts :
  (forall to_int,
     raises (app_filing_year to_int
               [[("filing_year", VInt 2023)]; [("client_name", VStr "Globex")]]))
  /\ (forall to_Int64,
        json_filing_year to_Int64 [[("client_name", VStr "Globex")]]
        = Raise KeyError)
  /\ (forall to_int,
        app_filing_year to_int [[("client_name", VStr "Globex")]]
        = Raise KeyError).
Proof.
  split; [|split; reflexivity].
  intros to_int. unfold app_filing_year. simpl.
  apply (astype_int_missing _ _ NaN); [|reflexivity].
  apply list_elem_of_further, list_elem_of_here.
Qed.

Lemma year_cast_witness :
  column "filing_year" three_filings = Ok [VInt 2023; NaN; VNone]
  /\ exists years,
       json_filing_year takes_integers three_filings = Ok years
       /\ years = [Some 2023%Z; None; None].
Proof.
  assert (column "filing_year" three_filings = Ok [VInt 2023; NaN; VNone])
    as Hcol by reflexivity.
  split; [exact Hcol|].
  destruct (year_cast takes_integers three_filings _ Hcol) as [Hok _].
  destruct Hok as (years & Hyears & _).
  - constructor; [right; eexists; reflexivity|].
    constructor; [left; reflexivity|].
    constructor; [left; reflexivity|]. constructor.
  - exists years. split; [exact Hyears|].
    vm_compute in Hyears. now injection Hyears as <-.
Defined.

(** ** The two loops of the merging variant *)

Ltac run := cbn [mbind mret result_bind result_ret].

Lemma for_each_app {S A} (body : S -> A -> result S) (s : S) (l1 l2 : list A) :
  Py.for_each body s (l1 ++ l2)
  = (s' ← Py.for_each body s l1; Py.for_each body s' l2).
Proof.
  revert s. induction l1 as [|x l1 IH]; intros s; simpl; [reflexivity|].
  destruct (body s x) as [s'|e]; simpl; [apply IH | reflexivity].
Qed.

Lemma merge_activity_eq (d : Json.lobbyist_dict) (a : value) :
  Json.merge_activity d a = (ls ← lobbyists_of a; Py.for_each Json.merge d ls).
Proof. reflexivity. Qed.

(** When the two nested loops return, they are one loop over the visited
    entries. *)
Lemma merge_activities_visited (activities : list value) (d d' : Json.lobbyist_dict) :
  Py.for_each Json.merge_activity d activities = Ok d' ->
  exists es, visited activities = Ok es /\ Py.for_each Json.merge d es = Ok d'.
Proof.
  unfold visited.
  revert d. induction activities as [|a activities IH]; intros d;
    cbn [Py.for_each Py.collect].
  - intros [= <-]. exists []. split; reflexivity.
  - rewrite merge_activity_eq.
    destruct (lobbyists_of a) as [ls|e]; run; [|discriminate].
    destruct (Py.for_each Json.merge d ls) as [d1|e] eqn:Hls; run; [|discriminate].
    intros Hrest. apply IH in Hrest as (es & -> & Hes). run.
    exists (ls ++ es). split; [reflexivity|].
    rewrite for_each_app, Hls. exact Hes.
Qed.

Lemma visited_merge_activities (activities es : list value) (d : Json.lobbyist_dict) :
  visited activities = Ok es ->
  Py.for_each Json.merge_activity d activities = Py.for_each Json.merge d es.
Proof.
  unfold visited.
  revert d es. induction activities as [|a activities IH]; intros d es;
    cbn [Py.for_each Py.collect].
  - now intros [= <-].
  - rewrite merge_activity_eq.
    destruct (lobbyists_of a) as [ls|e]; run; [|discriminate].
    destruct (Py.collect lobbyists_of activities) as [es'|e]; run; [|discriminate].
    intros [= <-]. rewrite for_each_app.
    destruct (Py.for_each Json.merge d ls) as [d1|e]; run; [|reflexivity].
    now apply IH.
Qed.

Lemma merge_eq (d : Json.lobbyist_dict) (e : value) :
  Json.merge d e
  = (n ← display_name e; p ← Json.trimmed_position e;
     mret (Json.update d n p)).
Proof. reflexivity. Qed.

(** What one entry gives the loop: its name and its trimmed position. *)
Lemma merge_Ok (d d' : Json.lobbyist_dict) (e : value) :
  Json.merge d e = Ok d' <->
  exists n p, display_name e = Ok n /\ Json.trimmed_position e = Ok p
              /\ d' = Json.update d n p.
Proof.
  unfold Json.merge. split.
  - destruct (display_name e) as [n|]; run; [|discriminate].
    destruct (Json.trimmed_position e) as [p|]; run; [|discriminate].
    intros [= <-]. eauto.
  - intros (n & p & -> & -> & ->). reflexivity.
Qed.

(** ** The dictionary of lobbyists *)

Lemma has_key_In (k : string) (d : Json.lobbyist_dict) :
  Json.has_key k d = true <-> In k (map fst d).
Proof.
  unfold Json.has_key. rewrite existsb_exists, in_map_iff. split.
  - intros ([k' s] & Hin & Heq). apply String.eqb_eq in Heq. simpl in Heq.
    subst. now exists (k, s).
  - intros ([k' s] & <- & Hin). exists (k', s). split; [assumption|].
    apply String.eqb_refl.
Qed.

Lemma has_key_not_In (k : string) (d : Json.lobbyist_dict) :
  Json.has_key k d = false <-> ~ In k (map fst d).
Proof.
  rewrite <- has_key_In. destruct (Json.has_key k d); split; congruence.
Qed.

Lemma keys_add_position (k p : string) (d : Json.lobbyist_dict) :
  map fst (Json.add_position k p d) = map fst d.
Proof.
  unfold Json.add_position. rewrite map_map. apply map_ext.
  intros [k' s]. simpl. now destruct (String.eqb k' k).
Qed.

Lemma In_add_position (k p : string) (d : Json.lobbyist_dict) k' s :
  In (k', s) (Json.add_position k p d) <->
  exists s0, In (k', s0) d /\ s = if String.eqb k' k then {[ p ]} ∪ s0 else s0.
Proof.
  unfold Json.add_position. rewrite in_map_iff. split.
  - intros ([k0 s0] & Heq & Hin). simpl in Heq.
    destruct (String.eqb k0 k) eqn:E; injection Heq as <- <-;
      exists s0; rewrite E; auto.
  - intros (s0 & Hin & ->). exists (k', s0). split; [|assumption].
    simpl. now destruct (String.eqb k' k).
Qed.

Lemma nonempty_true (s : string) : Str.nonempty s = true <-> s <> "".
Proof. destruct s; simpl; split; congruence. Qed.

(** The keys after one entry: a new name that is not empty goes last. *)
Lemma keys_update (d : Json.lobbyist_dict) (n p : string) :
  map fst (Json.update d n p)
  = if Str.nonempty n && negb (Json.has_key n d)
    then map fst d ++ [n] else map fst d.
Proof.
  unfold Json.update, Json.set_empty.
  destruct (Str.nonempty n); simpl; [|reflexivity].
  destruct (Json.has_key n d) eqn:Hk; simpl;
    destruct (Json.keeps p); rewrite ?keys_add_position, ?map_app; reflexivity.
Qed.

Lemma represents_nil : represents [] [].
Proof.
  split; [constructor|]. split.
  - intros k. simpl. split; [tauto | intros [_ [x []]]].
  - intros k s [].
Qed.

Lemma In_keys (d : Json.lobbyist_dict) k s : In (k, s) d -> In k (map fst d).
Proof. intros Hin. apply in_map_iff. now exists (k, s). Qed.

Lemma represents_update d seen n p :
  represents d seen -> represents (Json.update d n p) (seen ++ [(n, p)]).
Proof.
  intros (Hnd & Hkeys & Hpos).
  assert (forall k x, In (k, x) (seen ++ [(n, p)])
                      <-> In (k, x) seen \/ (k = n /\ x = p)) as Hseen.
  { intros k x. rewrite in_app_iff. simpl. split.
    - intros [?|[[= <- <-]|[]]]; auto.
    - intros [?|[-> ->]]; auto. }
  destruct (Str.nonempty n) eqn:Hn.
  2: { (* an empty name: the dictionary is as it was *)
    assert (n = "") as -> by (destruct n; [reflexivity | discriminate]).
    unfold Json.update. simpl. split; [assumption|]. split.
    - intros k. rewrite Hkeys. split.
      + intros [Hk [x Hx]]. split; [assumption|]. exists x. apply Hseen. auto.
      + intros [Hk [x Hx]]. split; [assumption|]. exists x.
        apply Hseen in Hx as [?|[? _]]; [assumption | contradiction].
    - intros k s Hin x. rewrite (Hpos k s Hin x), Hseen.
      apply In_keys, Hkeys in Hin as [Hk _]. intuition. }
  apply nonempty_true in Hn.
  (* the dictionary once the name has its key *)
  set (d1 := if negb (Json.has_key n d) then Json.set_empty n d else d).
  assert (NoDup (map fst d1)
          /\ (forall k, In k (map fst d1) <-> In k (map fst d) \/ k = n)
          /\ (forall k s, In (k, s) d1 ->
              forall x, x ∈ s <-> Json.keeps x = true /\ In (k, x) seen))
    as (Hnd1 & Hkeys1 & Hpos1).
  { subst d1. destruct (Json.has_key n d) eqn:Hk; simpl.
    - apply has_key_In in Hk. split; [assumption|]. split; [|assumption].
      intros k. split; [auto | intros [?| ->]; assumption].
    - unfold Json.set_empty. rewrite Hk. apply has_key_not_In in Hk.
      rewrite map_app. simpl. split; [|split].
      + apply NoDup_app. split; [assumption|]. split.
        * intros k Hin Hin'. apply list_elem_of_In in Hin, Hin'.
          destruct Hin' as [<-|[]]. contradiction.
        * apply NoDup_singleton.
      + intros k. rewrite in_app_iff. simpl. intuition.
      + intros k s Hin x. apply in_app_iff in Hin as [Hin|[[= <- <-]|[]]].
        * now apply Hpos.
        * split; [set_solver|]. intros [_ Hx]. exfalso. apply Hk, Hkeys.
          eauto. }
  assert (Json.update d n p
          = if Json.keeps p then Json.add_position n p d1 else d1) as ->.
  { unfold Json.update. destruct n; [contradiction | reflexivity]. }
  split; [|split].
  - destruct (Json.keeps p); [rewrite keys_add_position|]; assumption.
  - intros k.
    assert (In k (map fst (if Json.keeps p then Json.add_position n p d1 else d1))
            <-> In k (map fst d1)) as ->
      by (destruct (Json.keeps p); [rewrite keys_add_position|]; reflexivity).
    rewrite Hkeys1, Hkeys. split.
    + intros [[Hk [x Hx]] | ->].
      * split; [assumption|]. exists x. apply Hseen. auto.
      * split; [assumption|]. exists p. apply Hseen. auto.
    + intros [Hk [x Hx]]. apply Hseen in Hx as [Hx | [-> _]]; eauto.
  - intros k s Hin x. rewrite Hseen.
    destruct (Json.keeps p) eqn:Hp.
    + apply In_add_position in Hin as (s0 & Hin & ->).
      specialize (Hpos1 k s0 Hin x).
      destruct (String.eqb k n) eqn:Hkn.
      * apply String.eqb_eq in Hkn as ->.
        rewrite elem_of_union, elem_of_singleton, Hpos1. split.
        -- intros [-> | [? ?]]; auto.
        -- intros [Hx [? | [_ ->]]]; auto.
      * apply String.eqb_neq in Hkn. rewrite Hpos1. intuition.
    + rewrite (Hpos1 k s Hin x). split.
      * intros [? ?]; auto.
      * intros [Hx [? | [_ ->]]]; [auto | congruence].
Qed.

Lemma for_each_merge_represents (es : list value) :
  forall d seen d',
  represents d seen ->
  Py.for_each Json.merge d es = Ok d' ->
  exists nps,
    Forall2 (fun e np => display_name e = Ok np.1
                         /\ Json.trimmed_position e = Ok np.2) es nps
    /\ represents d' (seen ++ nps).
Proof.
  induction es as [|e es IH]; intros d seen d' Hd; cbn [Py.for_each].
  - intros [= <-]. exists []. split; [constructor|]. now rewrite app_nil_r.
  - destruct (Json.merge d e) as [d1|] eqn:He; run; [|discriminate].
    intros Hes. apply merge_Ok in He as (n & p & Hn & Hp & ->).
    destruct (IH _ (seen ++ [(n, p)]) _ (represents_update _ _ n p Hd) Hes)
      as (nps & Hnps & Hd').
    exists ((n, p) :: nps). split; [constructor; [split|]; assumption|].
    now rewrite <- app_assoc in Hd'.
Qed.

Lemma In_read (es : list value) (nps : list (string * string)) :
  Forall2 (fun e np => display_name e = Ok np.1
                       /\ Json.trimmed_position e = Ok np.2) es nps ->
  forall n p, In (n, p) nps <->
              exists e, In e es /\ display_name e = Ok n
                        /\ Json.trimmed_position e = Ok p.
Proof.
  induction 1 as [|e [n0 p0] es nps [Hn Hp] _ IH]; intros n p; simpl.
  - split; [intros [] | intros (e & [] & _)].
  - rewrite IH. simpl in Hn, Hp. split.
    + intros [[= <- <-] | (e' & Hin & ? & ?)]; eauto 6.
    + intros (e' & [<- | Hin] & Hn' & Hp'); [left; congruence | eauto 6].
Qed.

Lemma read_position (es : list value) (nps : list (string * string)) :
  Forall2 (fun e np => display_name e = Ok np.1
                       /\ Json.trimmed_position e = Ok np.2) es nps ->
  forall e, In e es -> returns (Json.trimmed_position e).
Proof.
  induction 1 as [|e0 np es nps [_ Hp] _ IH]; intros e; simpl; [intros []|].
  intros [<- | Hin]; [now exists np.2 | now apply IH].
Qed.

Lemma lower_empty (s : string) : Str.lower s = "" -> s = "".
Proof. destruct s; [reflexivity | discriminate]. Qed.

(** The test of the code is the cleaning of the specification. *)
Lemma keeps_cleaned (p : string) : Json.keeps p = true <-> cleaned p.
Proof.
  unfold Json.keeps, cleaned.
  rewrite andb_true_iff, negb_true_iff, bool_decide_eq_false, nonempty_true.
  split.
  - intros [Hp Hl]. split; [assumption|]. intros E. apply Hl. rewrite E.
    set_solver.
  - intros [Hp Hl]. split; [assumption|].
    intros Hin. apply list_elem_of_In in Hin as [E | [E | []]].
    + congruence.
    + symmetry in E. now apply lower_empty in E.
Qed.

Lemma extract_lobbyists_Ok (activities : list value) (res : list Json.lobbyist) :
  Json.extract_lobbyists (VList activities) = Ok res <->
  exists es d, visited activities = Ok es
               /\ Py.for_each Json.merge [] es = Ok d
               /\ res = map (fun kv => Json.Lobbyist kv.1 kv.2) d.
Proof.
  unfold Json.extract_lobbyists. split.
  - destruct (Py.for_each Json.merge_activity [] activities) as [d|] eqn:Hd;
      run; [|discriminate].
    intros [= <-]. apply merge_activities_visited in Hd as (es & Hes & Hd).
    eauto.
  - intros (es & d & Hes & Hd & ->).
    rewrite (visited_merge_activities _ _ _ Hes), Hd. reflexivity.
Qed.

Lemma names_of_dict (d : Json.lobbyist_dict) :
  map Json.name (map (fun kv => Json.Lobbyist kv.1 kv.2) d) = map fst d.
Proof. rewrite map_map. reflexivity. Qed.

(** The merging variant returns on entries with a [lobbyist] object and
    with a [covered_position] that is absent or text. *)
Lemma well_formed_entry_read (e : value) :
  well_formed_entry e ->
  returns (display_name e) /\ returns (Json.trimmed_position e).
Proof.
  intros (d & names & -> & Hl & Hcp). split.
  - unfold display_name. simpl. rewrite Hl. run. simpl.
    destruct (Py.lookup "first_name" names), (Py.lookup "last_name" names);
      run; eexists; reflexivity.
  - unfold Json.trimmed_position. simpl.
    destruct Hcp as [-> | [s ->]]; run; eexists; reflexivity.
Qed.

Lemma well_formed_entries_merge (es : list value) :
  Forall well_formed_entry es ->
  forall d, returns (Py.for_each Json.merge d es).
Proof.
  induction 1 as [|e es He _ IH]; intros d; cbn [Py.for_each].
  - now exists d.
  - apply well_formed_entry_read in He as [[n Hn] [p Hp]].
    rewrite merge_eq, Hn, Hp. run. apply IH.
Qed.

Lemma well_formed_activity_lobbyists (a : value) :
  well_formed_activity a ->
  exists ls, lobbyists_of a = Ok ls /\ Forall well_formed_entry ls.
Proof.
  intros (d & -> & Hls). unfold lobbyists_of, Py.contains, Py.getitem.
  destruct (Py.lookup "lobbyists" d) as [v|] eqn:E; run.
  - rewrite bool_decide_eq_true_2 by eauto.
    destruct v; eauto.
  - rewrite bool_decide_eq_false_2 by (intros [? ?]; discriminate). eauto.
Qed.

Lemma well_formed_activities_merge (activities : list value) :
  Forall well_formed_activity activities ->
  forall d, returns (Py.for_each Json.merge_activity d activities).
Proof.
  induction 1 as [|a activities Ha _ IH]; intros d; cbn [Py.for_each].
  - now exists d.
  - apply well_formed_activity_lobbyists in Ha as (ls & Hls & Hwf).
    rewrite merge_activity_eq, Hls. run.
    destruct (well_formed_entries_merge ls Hwf d) as [d1 ->]. run. apply IH.
Qed.

Lemma mapM_app_Ok {A B} (f : A -> result B) (l1 l2 : list A) (k1 k2 : list B) :
  mapM f l1 = Ok k1 -> mapM f l2 = Ok k2 -> mapM f (l1 ++ l2) = Ok (k1 ++ k2).
Proof.
  rewrite !mapM_Ok. apply Forall2_app.
Qed.

(** streamlit_app.py lists the display name of every visited entry. *)
Lemma app_lobbyists_names (activities : list value) (names : list string) :
  App.extract_lobbyists (VList activities) = Ok names ->
  exists es, visited activities = Ok es /\ mapM display_name es = Ok names.
Proof.
  unfold App.extract_lobbyists, visited.
  revert names. induction activities as [|a activities IH]; intros names;
    cbn [Py.collect].
  - intros [= <-]. exists []. split; reflexivity.
  - destruct (lobbyists_of a) as [ls|]; run; [|discriminate].
    destruct (mapM display_name ls) as [ns|] eqn:Hns; run; [|discriminate].
    destruct (Py.collect _ activities) as [ms|] eqn:Hms; run; [|discriminate].
    intros [= <-]. destruct (IH ms eq_refl) as (es & -> & Hes). run.
    exists (ls ++ es). split; [reflexivity | now apply mapM_app_Ok].
Qed.


(** C1, amended.  In streamlit_json.py [extract_lobbyists] returns when
    every activity is an object whose [lobbyists], when a list, holds
    objects with a [lobbyist] object and with a [covered_position] that is
    absent or text, and whenever it returns,
    its result has no two entries of the same name, has an entry for
    exactly the names that are not empty among the display names of the
    visited lobbyist entries, and the positions of the entry of a name are
    exactly the cleaned positions (trimmed, not empty, not "n/a" in any
    case) of the visited entries of that name.  In streamlit_app.py
    [extract_lobbyists] returns the display names of the visited entries,
    one for each entry in order, repeated names included. *)
Theorem merged_lobbyists (activities : list value) :
  (Forall well_formed_activity activities ->
   returns (Json.extract_lobbyists (VList activities)))
  /\ (forall names,
      App.extract_lobbyists (VList activities) = Ok names ->
      exists es, visited activities = Ok es /\ mapM display_name es = Ok names)
  /\ (forall res,
      Json.extract_lobbyists (VList activities) = Ok res ->
      exists es,
        visited activities = Ok es
        /\ NoDup (map Json.name res)
        /\ (forall n, In n (map Json.name res) <->
                      n <> "" /\ exists e, In e es /\ display_name e = Ok n)
        /\ (forall l, In l res ->
            forall p, p ∈ Json.positions l <->
                      cleaned p
                      /\ exists e, In e es
                                   /\ display_name e = Ok (Json.name l)
                                   /\ Json.trimmed_position e = Ok p)).
Proof.
  split; [|split].
  - intros Hwf. unfold Json.extract_lobbyists.
    destruct (well_formed_activities_merge activities Hwf []) as [d ->].
    run. eexists. reflexivity.
  - apply app_lobbyists_names.
  - intros res Hres.
    apply extract_lobbyists_Ok in Hres as (es & d & Hes & Hd & ->).
    exists es. split; [assumption|].
    destruct (for_each_merge_represents es [] [] d represents_nil Hd)
      as (nps & Hread & Hnd & Hkeys & Hpos).
    simpl in Hkeys, Hpos.
    rewrite names_of_dict. split; [assumption|]. split.
    + intros n. rewrite Hkeys. split.
      * intros [Hn [p Hp]]. split; [assumption|].
        apply (In_read _ _ Hread) in Hp as (e & ? & ? & ?). eauto.
      * intros [Hn (e & Hin & He)]. split; [assumption|].
        destruct (read_position _ _ Hread e Hin) as [p Hp].
        exists p. apply (In_read _ _ Hread). eauto.
    + intros l Hl p. apply in_map_iff in Hl as ([k s] & <- & Hin). simpl.
      rewrite (Hpos k s Hin p), keeps_cleaned, (In_read _ _ Hread).
      reflexivity.
Qed.

Lemma merged_lobbyists_witness :
  returns (Json.extract_lobbyists (VList jane_twice))
  /\ Json.extract_lobbyists (VList jane_twice)
     = Ok [Json.Lobbyist "Jane Doe" {[ "Senator"; "Advisor" ]}]
  /\ exists es,
       visited jane_twice = Ok es
       /\ NoDup ["Jane Doe"]
       /\ (forall n, In n ["Jane Doe"] <->
                     n <> "" /\ exists e, In e es /\ display_name e = Ok n)
       /\ (forall l, In l [Json.Lobbyist "Jane Doe" {[ "Senator"; "Advisor" ]}] ->
           forall p, p ∈ Json.positions l <->
                     cleaned p
                     /\ exists e, In e es
                                  /\ display_name e = Ok (Json.name l)
                                  /\ Json.trimmed_position e = Ok p).
Proof.
  destruct (merged_lobbyists jane_twice) as (Hreturns & _ & Hmerged).
  assert (Json.extract_lobbyists (VList jane_twice)
          = Ok [Json.Lobbyist "Jane Doe" {[ "Senator"; "Advisor" ]}]) as Hres
    by (vm_compute; reflexivity).
  split; [|split; [exact Hres | exact (Hmerged _ Hres)]].
  apply Hreturns.
  repeat constructor;
    (eexists; split; [reflexivity|]; intros ls [= <-]; repeat constructor;
     do 2 eexists; split; [reflexivity|]; split; [reflexivity|];
     right; eexists; reflexivity).
Defined.

(** C1, as the claim has it: in streamlit_app.py a lobbyist named in two
    activities of one filing is twice in the derived list. *)
Lemma app_lobbyists_repeat_names :
  exists names,
    App.extract_lobbyists (VList jane_twice) = Ok names /\ ~ NoDup names.
Proof.
  exists ["Jane Doe"; "Jane Doe"]. split; [reflexivity|].
  intros Hnd. apply NoDup_cons in Hnd as [Hnd _]. apply Hnd. set_solver.
Qed.

Lemma for_each_merge_named (es : list value) :
  forall d d',
  Py.for_each Json.merge d es = Ok d' ->
  Py.for_each Json.merge d (List.filter (fun e => negb (nameless e)) es) = Ok d'.
Proof.
  induction es as [|e es IH]; intros d d'; cbn [Py.for_each List.filter];
    [trivial|].
  destruct (Json.merge d e) as [d1|] eqn:He; run; [|discriminate].
  intros Hes. apply IH in Hes.
  pose proof He as He'. apply merge_Ok in He' as (n & p & Hn & Hp & ->).
  unfold nameless. rewrite Hn. destruct n as [|c n]; simpl.
  - exact Hes.
  - rewrite He. exact Hes.
Qed.

Lemma visited_one_activity (es : list value) : visited [activity es] = Ok es.
Proof. unfold visited. simpl. now rewrite app_nil_r. Qed.

(** An entry without a name leaves the dictionary as it was, whatever its
    covered position. *)
Lemma nameless_entry_skipped (d : Json.lobbyist_dict) (e : value) :
  nameless e = true -> returns (Json.merge d e) -> Json.merge d e = Ok d.
Proof.
  unfold nameless. intros Hn [d' Hd]. rewrite Hd.
  apply merge_Ok in Hd as (n & p & Hn' & _ & ->). rewrite Hn' in Hn.
  destruct n; [reflexivity | discriminate].
Qed.

(** C10.  Whenever [extract_lobbyists] of streamlit_json.py returns, no
    entry of its result has the empty name, and the result is the one the
    function gives on the visited entries without those whose display name
    is empty: such an entry is dropped with its covered position. *)
Theorem nameless_entries_dropped (activities : list value)
  (res : list Json.lobbyist) :
  Json.extract_lobbyists (VList activities) = Ok res ->
  exists es,
    visited activities = Ok es
    /\ (forall l, In l res -> Json.name l <> "")
    /\ Json.extract_lobbyists
         (VList [activity (List.filter (fun e => negb (nameless e)) es)])
       = Ok res.
Proof.
  intros Hres. pose proof Hres as H.
  apply extract_lobbyists_Ok in H as (es & d & Hes & Hd & ->).
  exists es. split; [assumption|]. split.
  - destruct (for_each_merge_represents es [] [] d represents_nil Hd)
      as (nps & _ & _ & Hkeys & _).
    intros l Hl. apply (in_map Json.name) in Hl. rewrite names_of_dict in Hl.
    now apply Hkeys in Hl as [Hl _].
  - apply extract_lobbyists_Ok.
    exists (List.filter (fun e => negb (nameless e)) es), d.
    split; [apply visited_one_activity|]. split; [|reflexivity].
    now apply for_each_merge_named.
Qed.

Lemma nameless_entries_dropped_witness :
  Json.extract_lobbyists (VList jane_and_nobody)
  = Ok [Json.Lobbyist "Jane Doe" {[ "Senator" ]}]
  /\ exists es,
       visited jane_and_nobody = Ok es
       /\ (forall l, In l [Json.Lobbyist "Jane Doe" {[ "Senator" ]}] ->
           Json.name l <> "")
       /\ Json.extract_lobbyists
            (VList [activity (List.filter (fun e => negb (nameless e)) es)])
          = Ok [Json.Lobbyist "Jane Doe" {[ "Senator" ]}].
Proof.
  assert (Json.extract_lobbyists (VList jane_and_nobody)
          = Ok [Json.Lobbyist "Jane Doe" {[ "Senator" ]}]) as Hres
    by (vm_compute; reflexivity).
  split; [exact Hres | exact (nameless_entries_dropped _ _ Hres)].
Defined.

(** ** Other shapes that the loops do not take *)

(** An activity that is null stops all three derivations at the test
    ["lobbyists" in activity], and an entry without a [lobbyist] object
    stops the two that compute names. *)
Lemma malformed_shapes_raise :
  Json.extract_lobbyists (VList [VNone]) = Raise TypeError
  /\ App.extract_lobbyists (VList [VNone]) = Raise TypeError
  /\ App.extract_covered_positions (VList [VNone]) = Raise TypeError
  /\ Json.extract_lobbyists
       (VList [activity [VDict [("covered_position", VStr "Senator")]]])
     = Raise KeyError
  /\ App.extract_lobbyists
       (VList [activity [VDict [("covered_position", VStr "Senator")]]])
     = Raise KeyError.
Proof. repeat split. Qed.

(** * Further properties of the two files *)

Ltac run_in H := cbn [mbind mret result_bind result_ret] in H.

(** ** The order of texts *)

Lemma ascii_compare_lt_trans (a b c : ascii) :
  Ascii.compare a b = Lt -> Ascii.compare b c = Lt -> Ascii.compare a c = Lt.
Proof.
  unfold Ascii.compare. rewrite !N.compare_lt_iff. lia.
Qed.

Lemma ascii_compare_refl (a : ascii) : Ascii.compare a a = Eq.
Proof. unfold Ascii.compare. apply N.compare_refl. Qed.

Lemma string_compare_refl (s : string) : String.compare s s = Eq.
Proof.
  induction s as [|c s IH]; simpl; [reflexivity|].
  now rewrite ascii_compare_refl.
Qed.

Lemma string_compare_lt_trans (s t u : string) :
  String.compare s t = Lt -> String.compare t u = Lt -> String.compare s u = Lt.
Proof.
  revert t u. induction s as [|a s IH]; intros [|b t] [|c u]; simpl;
    try discriminate; try reflexivity.
  destruct (Ascii.compare a b) eqn:Hab; try discriminate;
    destruct (Ascii.compare b c) eqn:Hbc; try discriminate; intros H1 H2.
  - apply Ascii.compare_eq_iff in Hab, Hbc. subst.
    rewrite ascii_compare_refl. now apply (IH t).
  - apply Ascii.compare_eq_iff in Hab. subst. now rewrite Hbc.
  - apply Ascii.compare_eq_iff in Hbc. subst. now rewrite Hab.
  - now rewrite (ascii_compare_lt_trans a b c).
Qed.

Lemma string_compare_gt_lt (s t : string) :
  String.compare s t = Gt -> String.compare t s = Lt.
Proof.
  intros H. rewrite String.compare_antisym, H. reflexivity.
Qed.

Lemma increasing_NoDup (l : list string) : increasing l -> NoDup l.
Proof.
  induction l as [|x l IH]; simpl; [constructor|].
  intros [Hx Hl]. constructor; [|now apply IH].
  intros Hin. rewrite Forall_forall in Hx. specialize (Hx x Hin).
  rewrite string_compare_refl in Hx. discriminate.
Qed.

(** ** [sorted(set(l))] *)

Lemma In_insert_sorted (x y : string) (l : list string) :
  In y (Py.insert_sorted x l) <-> y = x \/ In y l.
Proof.
  induction l as [|z l IH]; simpl; [intuition|].
  destruct (String.compare x z) eqn:E; simpl.
  - apply String.compare_eq_iff in E. subst. intuition.
  - intuition.
  - rewrite IH. intuition.
Qed.

Lemma In_sorted_set (y : string) (l : list string) :
  In y (Py.sorted_set l) <-> In y l.
Proof.
  unfold Py.sorted_set. induction l as [|x l IH]; simpl; [reflexivity|].
  rewrite In_insert_sorted, IH. intuition.
Qed.

Lemma increasing_insert_sorted (x : string) (l : list string) :
  increasing l -> increasing (Py.insert_sorted x l).
Proof.
  induction l as [|z l IH]; simpl; [auto|].
  intros [Hz Hl]. destruct (String.compare x z) eqn:E; simpl.
  - auto.
  - split; [|auto]. constructor; [assumption|].
    eapply Forall_impl; [exact Hz|]. intros y Hy. simpl in Hy.
    now apply (string_compare_lt_trans x z y).
  - split; [|auto]. apply Forall_forall. intros y Hy.
    apply list_elem_of_In, In_insert_sorted in Hy as [-> | Hy].
    + now apply string_compare_gt_lt.
    + rewrite Forall_forall in Hz. apply Hz. now apply list_elem_of_In.
Qed.

Lemma increasing_sorted_set (l : list string) : increasing (Py.sorted_set l).
Proof.
  unfold Py.sorted_set. induction l as [|x l IH]; simpl; [exact I|].
  now apply increasing_insert_sorted.
Qed.

Lemma sorted_set_nil (l : list string) : Py.sorted_set l = [] <-> l = [].
Proof.
  split; [|now intros ->].
  destruct l as [|x l]; [reflexivity|]. intros H.
  assert (In x (Py.sorted_set (x :: l))) as Hin
    by (apply In_sorted_set; now left).
  rewrite H in Hin. destruct Hin.
Qed.

(** ** Comprehensions that may raise *)

Lemma collect_app_Ok {A B} (f : A -> result (list B)) (l1 l2 : list A)
  (k1 k2 : list B) :
  Py.collect f l1 = Ok k1 -> Py.collect f l2 = Ok k2 ->
  Py.collect f (l1 ++ l2) = Ok (k1 ++ k2).
Proof.
  revert k1. induction l1 as [|x l1 IH]; intros k1; cbn [Py.collect app].
  - now intros [= <-].
  - destruct (f x) as [ys|]; run; [|discriminate].
    destruct (Py.collect f l1) as [zs|]; run; [|discriminate].
    intros [= <-] H2. rewrite (IH zs eq_refl H2). run. now rewrite app_assoc.
Qed.

Lemma collect_returns {A B} (f : A -> result (list B)) (l : list A) :
  returns (Py.collect f l) <-> Forall (fun x => returns (f x)) l.
Proof.
  induction l as [|x l IH]; cbn [Py.collect].
  - split; [constructor | now exists []].
  - rewrite Forall_cons, <- IH. split.
    + intros [k Hk]. destruct (f x) as [ys|]; run_in Hk; [|discriminate].
      destruct (Py.collect f l) as [zs|]; run_in Hk; [|discriminate].
      split; eexists; reflexivity.
    + intros [[ys ->] [zs ->]]. run. eexists. reflexivity.
Qed.

Lemma collect_app_inv {A B} (f : A -> result (list B)) (l1 l2 : list A)
  (k : list B) :
  Py.collect f (l1 ++ l2) = Ok k ->
  exists k1 k2, Py.collect f l1 = Ok k1 /\ Py.collect f l2 = Ok k2
                /\ k = k1 ++ k2.
Proof.
  revert k. induction l1 as [|x l1 IH]; intros k; cbn [Py.collect app].
  - intros H. exists [], k. auto.
  - destruct (f x) as [ys|]; run; [|discriminate].
    destruct (Py.collect f (l1 ++ l2)) as [zs|] eqn:Hz; run; [|discriminate].
    intros [= <-]. destruct (IH zs eq_refl) as (k1 & k2 & -> & -> & ->). run.
    exists (ys ++ k1), k2. now rewrite app_assoc.
Qed.

(** A comprehension over the entries of the activities is one over the
    visited entries, when it returns. *)
Lemma collect_visited {B} (g : value -> result (list B))
  (activities : list value) (k : list B) :
  Py.collect (fun a => ls ← lobbyists_of a; Py.collect g ls) activities = Ok k
  <-> exists es, visited activities = Ok es /\ Py.collect g es = Ok k.
Proof.
  unfold visited. revert k.
  induction activities as [|a activities IH]; intros k; cbn [Py.collect].
  - split.
    + intros [= <-]. exists []. split; reflexivity.
    + intros (es & [= <-] & Hk). exact Hk.
  - destruct (lobbyists_of a) as [ls|]; run.
    2: { split; [discriminate | intros (es & He & _); discriminate]. }
    split.
    + destruct (Py.collect g ls) as [ys|] eqn:Hy; run; [|discriminate].
      destruct (Py.collect _ activities) as [zs|] eqn:Hz; run; [|discriminate].
      intros [= <-]. destruct (proj1 (IH zs) eq_refl) as (es & He & Hes).
      rewrite He. run.
      exists (ls ++ es). split; [reflexivity | now apply collect_app_Ok].
    + intros (es & He & Hk).
      destruct (Py.collect lobbyists_of activities) as [es'|]; run_in He;
        [|discriminate].
      injection He as <-.
      apply collect_app_inv in Hk as (k1 & k2 & -> & Hk2 & ->). run.
      assert (Py.collect (fun a => ls ← lobbyists_of a; Py.collect g ls)
                activities = Ok k2) as -> by (apply IH; eauto).
      reflexivity.
Qed.

Lemma In_collect {A B} (f : A -> result (list B)) (l : list A) (k : list B) :
  Py.collect f l = Ok k ->
  forall y, In y k <-> exists x ys, In x l /\ f x = Ok ys /\ In y ys.
Proof.
  revert k. induction l as [|x l IH]; intros k; cbn [Py.collect].
  - intros [= <-] y. simpl. split; [intros [] | intros (? & ? & [] & _)].
  - destruct (f x) as [ys|] eqn:Hx; run; [|discriminate].
    destruct (Py.collect f l) as [zs|]; run; [|discriminate].
    intros [= <-] y. rewrite in_app_iff, (IH zs eq_refl). simpl. split.
    + intros [Hy | (x' & ys' & ? & ? & ?)]; [exists x, ys | exists x', ys']; auto.
    + intros (x' & ys' & [<- | Hin] & Hf & Hy).
      * left. congruence.
      * right. eauto.
Qed.

(** ** The covered positions of streamlit_app.py *)

Lemma app_keeps_cleaned (p : string) : App.keeps p = true <-> cleaned p.
Proof.
  unfold App.keeps, cleaned.
  rewrite andb_true_iff, negb_true_iff, String.eqb_neq.
  destruct p; simpl; intuition congruence.
Qed.

(** What one entry gives: nothing for a covered position that is absent,
    null or otherwise false, and else its text, trimmed. *)
Lemma position_of_object (d : list (string * value)) :
  App.position_of (VDict d)
  = Ok match Py.lookup "covered_position" d with
       | Some c => if Py.truthy c then [Str.strip (Py.str c)] else []
       | None => []
       end.
Proof.
  unfold App.position_of. simpl.
  destruct (Py.lookup "covered_position" d) as [c|]; run; [|reflexivity].
  now destruct (Py.truthy c).
Qed.

Lemma position_of_returns (e : value) :
  returns (App.position_of e) <-> is_object e.
Proof.
  split.
  - intros [k Hk]. destruct e; try discriminate Hk. now eexists.
  - intros [d ->]. rewrite position_of_object. now eexists.
Qed.

Lemma app_positions_Ok (activities : list value) (res : list string) :
  App.extract_covered_positions (VList activities) = Ok res <->
  exists es ps, visited activities = Ok es
                /\ Py.collect App.position_of es = Ok ps
                /\ res = Py.sorted_set (List.filter App.keeps ps).
Proof.
  unfold App.extract_covered_positions. split.
  - destruct (Py.collect _ activities) as [ps|] eqn:Hps; run; [|discriminate].
    intros [= <-]. apply collect_visited in Hps as (es & ? & ?). eauto.
  - intros (es & ps & Hes & Hps & ->).
    assert (Py.collect (fun a => ls ← lobbyists_of a;
                                 Py.collect App.position_of ls) activities
            = Ok ps) as -> by (apply collect_visited; eauto).
    reflexivity.
Qed.

(** X1.  Whatever the cell, the list [extract_covered_positions] returns is
    in strictly increasing order of code points, so it has no duplicates,
    and every position in it is cleaned: not empty and not "n/a" in any
    case of its letters. *)
Theorem app_positions_increasing (v : value) (res : list string) :
  App.extract_covered_positions v = Ok res ->
  increasing res /\ NoDup res /\ Forall cleaned res.
Proof.
  intros Hres.
  assert (exists ps, res = Py.sorted_set (List.filter App.keeps ps))
    as [ps ->].
  { destruct v; try (injection Hres as <-; now exists []).
    apply app_positions_Ok in Hres as (es & ps & _ & _ & ->). eauto. }
  split; [apply increasing_sorted_set|].
  split; [apply increasing_NoDup, increasing_sorted_set|].
  apply Forall_forall. intros p Hp.
  apply list_elem_of_In, In_sorted_set, filter_In in Hp as [_ Hp].
  now apply app_keeps_cleaned.
Qed.

Lemma app_positions_increasing_witness :
  App.extract_covered_positions (VList jane_twice) = Ok ["Advisor"; "Senator"]
  /\ increasing ["Advisor"; "Senator"]
  /\ NoDup ["Advisor"; "Senator"]
  /\ Forall cleaned ["Advisor"; "Senator"].
Proof.
  assert (App.extract_covered_positions (VList jane_twice)
          = Ok ["Advisor"; "Senator"]) as Hres by reflexivity.
  split; [exact Hres | exact (app_positions_increasing _ _ Hres)].
Defined.

Lemma app_positions_In (activities : list value) (res : list string) :
  App.extract_covered_positions (VList activities) = Ok res ->
  exists es,
    visited activities = Ok es
    /\ Forall is_object es
    /\ forall p, In p res <->
                 cleaned p /\ exists e, In e es /\ App.position_of e = Ok [p].
Proof.
  intros Hres. apply app_positions_Ok in Hres as (es & ps & Hes & Hps & ->).
  exists es. split; [assumption|]. split.
  - assert (returns (Py.collect App.position_of es)) as Hr by now exists ps.
    apply collect_returns in Hr. eapply Forall_impl; [exact Hr|].
    intros e. apply position_of_returns.
  - intros p. rewrite In_sorted_set, filter_In, app_keeps_cleaned,
      (In_collect _ _ _ Hps). split.
    + intros [(e & ys & Hin & He & Hy) Hc]. split; [assumption|].
      exists e. split; [assumption|].
      destruct e; try discriminate He. rewrite position_of_object in He |- *.
      injection He as <-.
      destruct (Py.lookup "covered_position" d) as [c|]; [|destruct Hy].
      destruct (Py.truthy c); [|destruct Hy].
      destruct Hy as [<- | []]. reflexivity.
    + intros [Hc (e & Hin & He)]. split; [|assumption].
      exists e, [p]. split; [assumption|]. split; [assumption | now left].
Qed.

(** X2.  When [extract_covered_positions] returns, its positions are exactly
    the cleaned ones among the positions of the visited entries, where an
    entry gives a position only if its [covered_position] is true in
    Python's sense, and then the trimmed text of it. *)
Theorem app_positions_content (activities : list value) (res : list string) :
  App.extract_covered_positions (VList activities) = Ok res ->
  exists es,
    visited activities = Ok es
    /\ forall p, In p res <->
                 cleaned p /\ exists e, In e es /\ App.position_of e = Ok [p].
Proof.
  intros Hres. apply app_positions_In in Hres as (es & ? & _ & ?). eauto.
Qed.

Lemma app_positions_content_witness :
  App.extract_covered_positions (VList jane_and_nobody)
  = Ok ["Advisor"; "Senator"]
  /\ exists es,
       visited jane_and_nobody = Ok es
       /\ forall p, In p ["Advisor"; "Senator"] <->
                    cleaned p
                    /\ exists e, In e es /\ App.position_of e = Ok [p].
Proof.
  assert (App.extract_covered_positions (VList jane_and_nobody)
          = Ok ["Advisor"; "Senator"]) as Hres by reflexivity.
  split; [exact Hres | exact (app_positions_content _ _ Hres)].
Defined.

(** X3.  [extract_covered_positions] returns on a list of activities exactly
    when the tests on the activities return and every visited entry is a
    JSON object: no value of [covered_position] makes it raise. *)
Theorem app_positions_return_iff (activities : list value) :
  returns (App.extract_covered_positions (VList activities)) <->
  exists es, visited activities = Ok es /\ Forall is_object es.
Proof.
  split.
  - intros [res Hres].
    apply app_positions_In in Hres as (es & ? & ? & _). eauto.
  - intros (es & Hes & Hobj).
    assert (returns (Py.collect App.position_of es)) as [ps Hps].
    { apply collect_returns. eapply Forall_impl; [exact Hobj|].
      intros e. apply position_of_returns. }
    eexists. apply app_positions_Ok. eauto.
Qed.

(** ** When the derivations of lobbyists return *)

Lemma display_name_returns (e : value) :
  returns (display_name e) <->
  exists d names, e = VDict d /\ Py.lookup "lobbyist" d = Some (VDict names).
Proof.
  split.
  - intros [n Hn]. destruct e; try discriminate Hn.
    unfold display_name in Hn. simpl in Hn.
    destruct (Py.lookup "lobbyist" d) as [v|] eqn:E; run_in Hn; [|discriminate].
    destruct v; try discriminate Hn. eauto.
  - intros (d & names & -> & Hl). unfold display_name. simpl. rewrite Hl.
    run. simpl.
    destruct (Py.lookup "first_name" names), (Py.lookup "last_name" names);
      run; eexists; reflexivity.
Qed.

Lemma trimmed_position_returns (d : list (string * value)) :
  returns (Json.trimmed_position (VDict d)) <->
  Py.lookup "covered_position" d = None
  \/ exists s, Py.lookup "covered_position" d = Some (VStr s).
Proof.
  unfold Json.trimmed_position. simpl.
  destruct (Py.lookup "covered_position" d) as [c|]; run.
  - split.
    + intros [p Hp]. destruct c; try discriminate Hp. eauto.
    + intros [? | [s [= ->]]]; [discriminate | eexists; reflexivity].
  - split; [auto | intros _; eexists; reflexivity].
Qed.

Lemma entry_read_iff (e : value) :
  returns (display_name e) /\ returns (Json.trimmed_position e)
  <-> well_formed_entry e.
Proof.
  split; [|apply well_formed_entry_read].
  intros [Hn Hp]. apply display_name_returns in Hn as (d & names & -> & Hl).
  apply trimmed_position_returns in Hp. exists d, names. auto.
Qed.

Lemma for_each_merge_read (es : list value) (d d' : Json.lobbyist_dict) :
  Py.for_each Json.merge d es = Ok d' -> Forall well_formed_entry es.
Proof.
  revert d. induction es as [|e es IH]; intros d; cbn [Py.for_each];
    [constructor|].
  destruct (Json.merge d e) as [d1|] eqn:He; run; [|discriminate].
  intros Hes. constructor; [|now apply (IH d1)].
  apply merge_Ok in He as (n & p & Hn & Hp & _).
  apply entry_read_iff. split; eexists; eassumption.
Qed.

(** X4.  [extract_lobbyists] of streamlit_json.py returns on a list of
    activities exactly when the tests on the activities return and every
    visited entry is an object with a [lobbyist] object and with a
    [covered_position] that is absent or text. *)
Theorem json_lobbyists_return_iff (activities : list value) :
  returns (Json.extract_lobbyists (VList activities)) <->
  exists es, visited activities = Ok es /\ Forall well_formed_entry es.
Proof.
  split.
  - intros [res Hres]. apply extract_lobbyists_Ok in Hres as (es & d & ? & Hd & _).
    exists es. split; [assumption|]. now apply for_each_merge_read in Hd.
  - intros (es & Hes & Hwf).
    destruct (well_formed_entries_merge es Hwf []) as [d Hd].
    eexists. apply extract_lobbyists_Ok. eauto.
Qed.

Lemma collect_ext {A B} (f g : A -> result (list B)) (l : list A) :
  (forall x, f x = g x) -> Py.collect f l = Py.collect g l.
Proof.
  intros Hfg. induction l as [|x l IH]; cbn [Py.collect]; [reflexivity|].
  now rewrite Hfg, IH.
Qed.

Lemma mapM_collect {A B} (f : A -> result B) (l : list A) :
  mapM f l = Py.collect (fun x => y ← f x; mret [y]) l.
Proof.
  induction l as [|x l IH]; cbn [mapM Py.collect]; [reflexivity|].
  rewrite IH. destruct (f x); run; [|reflexivity].
  now destruct (Py.collect _ l).
Qed.

Lemma app_lobbyists_Ok (activities : list value) (names : list string) :
  App.extract_lobbyists (VList activities) = Ok names <->
  exists es, visited activities = Ok es /\ mapM display_name es = Ok names.
Proof.
  unfold App.extract_lobbyists.
  rewrite (collect_ext _ (fun a => ls ← lobbyists_of a;
             Py.collect (fun e => n ← display_name e; mret [n]) ls)).
  - rewrite collect_visited. now setoid_rewrite <- mapM_collect.
  - intros a. destruct (lobbyists_of a); run; [apply mapM_collect | reflexivity].
Qed.

(** X5.  [extract_lobbyists] of streamlit_app.py returns on a list of
    activities exactly when the tests on the activities return and every
    visited entry is an object with a [lobbyist] object. *)
Theorem app_lobbyists_return_iff (activities : list value) :
  returns (App.extract_lobbyists (VList activities)) <->
  exists es,
    visited activities = Ok es
    /\ Forall (fun e => exists d names,
                 e = VDict d /\ Py.lookup "lobbyist" d = Some (VDict names)) es.
Proof.
  split.
  - intros [names Hn]. apply app_lobbyists_Ok in Hn as (es & Hes & Hn).
    exists es. split; [assumption|]. apply mapM_Ok in Hn. clear Hes.
    induction Hn as [|e n es names He _ IH]; constructor; [|exact IH].
    apply display_name_returns. now exists n.
  - intros (es & Hes & Hwf).
    assert (returns (mapM display_name es)) as [names Hn].
    { apply mapM_returns. eapply Forall_impl; [exact Hwf|].
      intros e. apply display_name_returns. }
    exists names. apply app_lobbyists_Ok. eauto.
Qed.

(** X6.  Where the merging variant returns, so do the two derivations of
    streamlit_app.py. *)
Theorem app_returns_where_json_returns (activities : list value) :
  returns (Json.extract_lobbyists (VList activities)) ->
  returns (App.extract_lobbyists (VList activities))
  /\ returns (App.extract_covered_positions (VList activities)).
Proof.
  intros [res Hres].
  apply extract_lobbyists_Ok in Hres as (es & d & Hes & Hd & _).
  apply for_each_merge_read in Hd. split.
  - assert (returns (mapM display_name es)) as [names Hn].
    { apply mapM_returns. eapply Forall_impl; [exact Hd|].
      intros e He. now apply entry_read_iff in He as [? _]. }
    exists names. apply app_lobbyists_Ok. eauto.
  - assert (returns (Py.collect App.position_of es)) as [ps Hps].
    { apply collect_returns. eapply Forall_impl; [exact Hd|].
      intros e (d0 & ? & -> & _). apply position_of_returns. now exists d0. }
    eexists. apply app_positions_Ok. eauto.
Qed.

Lemma app_returns_where_json_returns_witness :
  returns (Json.extract_lobbyists (VList jane_twice))
  /\ returns (App.extract_lobbyists (VList jane_twice))
  /\ returns (App.extract_covered_positions (VList jane_twice)).
Proof.
  assert (returns (Json.extract_lobbyists (VList jane_twice))) as Hres
    by (eexists; vm_compute; reflexivity).
  split; [exact Hres | exact (app_returns_where_json_returns _ Hres)].
Defined.

(** ** The order of the merged names *)

Lemma In_first_occurrences (n : string) (l : list string) :
  In n (first_occurrences l) <-> In n l.
Proof.
  induction l as [|x l IH]; simpl; [reflexivity|].
  rewrite filter_In, IH, negb_true_iff, String.eqb_neq.
  destruct (String.eqb_spec x n); intuition congruence.
Qed.

Lemma NoDup_first_occurrences (l : list string) : NoDup (first_occurrences l).
Proof.
  induction l as [|x l IH]; simpl; constructor.
  - rewrite list_elem_of_In, filter_In, negb_true_iff, String.eqb_neq. intuition.
  - apply NoDup_ListNoDup, List.NoDup_filter, NoDup_ListNoDup, IH.
Qed.

Lemma first_occurrences_snoc (l : list string) (n : string) :
  first_occurrences (l ++ [n])
  = if bool_decide (n ∈ l) then first_occurrences l
    else first_occurrences l ++ [n].
Proof.
  induction l as [|x l IH]; simpl; [reflexivity|].
  rewrite IH. destruct (bool_decide (n ∈ l)) eqn:Hl.
  - apply bool_decide_eq_true in Hl.
    rewrite bool_decide_eq_true_2 by now apply list_elem_of_further.
    reflexivity.
  - apply bool_decide_eq_false in Hl.
    rewrite List.filter_app. simpl. destruct (String.eqb_spec n x) as [->|Hne].
    + rewrite bool_decide_eq_true_2 by apply list_elem_of_here.
      simpl. now rewrite app_nil_r.
    + rewrite bool_decide_eq_false_2
        by (rewrite elem_of_cons; intros [?|?]; congruence).
      reflexivity.
Qed.

Lemma first_seen_snoc (l : list string) (n : string) :
  first_seen (l ++ [n])
  = if Str.nonempty n && negb (bool_decide (n ∈ first_seen l))
    then first_seen l ++ [n] else first_seen l.
Proof.
  unfold first_seen. rewrite List.filter_app. simpl.
  destruct (Str.nonempty n) eqn:Hn; simpl; [|now rewrite app_nil_r].
  rewrite first_occurrences_snoc.
  rewrite (bool_decide_ext _ (n ∈ first_occurrences (List.filter Str.nonempty l)))
    by (rewrite !list_elem_of_In; symmetry; apply In_first_occurrences).
  now destruct (bool_decide _).
Qed.

Lemma for_each_merge_keys (es : list value) :
  forall d d' pre,
  map fst d = first_seen pre ->
  Py.for_each Json.merge d es = Ok d' ->
  exists names,
    mapM display_name es = Ok names /\ map fst d' = first_seen (pre ++ names).
Proof.
  induction es as [|e es IH]; intros d d' pre Hd; cbn [Py.for_each mapM].
  - intros [= <-]. exists []. split; [reflexivity | now rewrite app_nil_r].
  - destruct (Json.merge d e) as [d1|] eqn:He; run; [|discriminate].
    intros Hes. apply merge_Ok in He as (n & p & Hn & _ & ->).
    assert (map fst (Json.update d n p) = first_seen (pre ++ [n])) as Hd1.
    { rewrite keys_update, first_seen_snoc, <- Hd. f_equal.
      destruct (Json.has_key n d) eqn:Hk.
      - apply has_key_In in Hk.
        now rewrite bool_decide_eq_true_2 by now apply list_elem_of_In.
      - apply has_key_not_In in Hk.
        now rewrite bool_decide_eq_false_2 by now rewrite list_elem_of_In. }
    destruct (IH _ _ _ Hd1 Hes) as (names & Hnames & Hkeys).
    exists (n :: names). rewrite Hn, Hnames. run.
    split; [reflexivity|]. now rewrite <- app_assoc in Hkeys.
Qed.

(** X7.  When the merging variant returns, the names of its entries are the
    names streamlit_app.py lists for the same cell, without the empty ones
    and without repetitions, in the order in which they first occur. *)
Theorem merged_names_first_seen (activities : list value)
  (res : list Json.lobbyist) :
  Json.extract_lobbyists (VList activities) = Ok res ->
  exists names,
    App.extract_lobbyists (VList activities) = Ok names
    /\ map Json.name res = first_seen names.
Proof.
  intros Hres. apply extract_lobbyists_Ok in Hres as (es & d & Hes & Hd & ->).
  destruct (for_each_merge_keys es [] d [] eq_refl Hd) as (names & Hn & Hk).
  exists names. split; [apply app_lobbyists_Ok; eauto|].
  now rewrite names_of_dict.
Qed.

Lemma merged_names_first_seen_witness :
  Json.extract_lobbyists (VList jane_twice)
  = Ok [Json.Lobbyist "Jane Doe" {[ "Senator"; "Advisor" ]}]
  /\ exists names,
       App.extract_lobbyists (VList jane_twice) = Ok names
       /\ ["Jane Doe"] = first_seen names.
Proof.
  assert (Json.extract_lobbyists (VList jane_twice)
          = Ok [Json.Lobbyist "Jane Doe" {[ "Senator"; "Advisor" ]}]) as Hres
    by (vm_compute; reflexivity).
  split; [exact Hres | exact (merged_names_first_seen _ _ Hres)].
Defined.

(** ** The positions of the two files *)

(** X8.  When the merging variant returns, every position it attaches to a
    lobbyist is among the covered positions streamlit_app.py derives from
    the same cell. *)
Theorem json_positions_among_app_positions (activities : list value)
  (res : list Json.lobbyist) :
  Json.extract_lobbyists (VList activities) = Ok res ->
  exists ps,
    App.extract_covered_positions (VList activities) = Ok ps
    /\ forall l p, In l res -> p ∈ Json.positions l -> In p ps.
Proof.
  intros Hres. pose proof Hres as H.
  apply extract_lobbyists_Ok in H as (es & d & Hes & Hd & ->).
  assert (returns (Py.collect App.position_of es)) as [qs Hqs].
  { apply collect_returns. apply for_each_merge_read in Hd.
    eapply Forall_impl; [exact Hd|].
    intros e (d0 & ? & -> & _). apply position_of_returns. now exists d0. }
  exists (Py.sorted_set (List.filter App.keeps qs)).
  split; [apply app_positions_Ok; eauto|].
  destruct (for_each_merge_represents es [] [] d represents_nil Hd)
    as (nps & Hread & _ & _ & Hpos).
  intros l p Hl Hp. apply in_map_iff in Hl as ([k s] & <- & Hin).
  simpl in Hp. apply (Hpos k s Hin p) in Hp as [Hkeep Hseen]. simpl in Hseen.
  apply (In_read _ _ Hread) in Hseen as (e & He & _ & Htrim).
  apply In_sorted_set, filter_In. split.
  - apply (In_collect _ _ _ Hqs). exists e, [p].
    split; [assumption|]. split; [|now left].
    unfold Json.trimmed_position in Htrim.
    destruct e; try discriminate Htrim. rewrite position_of_object.
    simpl in Htrim.
    destruct (Py.lookup "covered_position" d0) as [c|]; run_in Htrim.
    + destruct c; try discriminate Htrim. simpl in Htrim.
      injection Htrim as <-. simpl.
      destruct s0; [discriminate Hkeep | reflexivity].
    + simpl in Htrim. injection Htrim as <-. discriminate Hkeep.
  - apply app_keeps_cleaned, keeps_cleaned, Hkeep.
Qed.

Lemma json_positions_among_app_positions_witness :
  Json.extract_lobbyists (VList jane_twice)
  = Ok [Json.Lobbyist "Jane Doe" {[ "Senator"; "Advisor" ]}]
  /\ exists ps,
       App.extract_covered_positions (VList jane_twice) = Ok ps
       /\ forall l p,
            In l [Json.Lobbyist "Jane Doe" {[ "Senator"; "Advisor" ]}] ->
            p ∈ Json.positions l -> In p ps.
Proof.
  assert (Json.extract_lobbyists (VList jane_twice)
          = Ok [Json.Lobbyist "Jane Doe" {[ "Senator"; "Advisor" ]}]) as Hres
    by (vm_compute; reflexivity).
  split; [exact Hres | exact (json_positions_among_app_positions _ _ Hres)].
Defined.

(** ** Foreign entities in the two files *)

Lemma app_foreign_entities_Ok (es ns : list value) :
  App.foreign_entities (VList es) = Ok ns <->
  Forall2 (fun e n => exists d, e = VDict d /\ Py.lookup "name" d = Some n) es ns.
Proof.
  unfold App.foreign_entities. rewrite mapM_Ok. split;
    (intros H; eapply Forall2_impl; [exact H|]; intros e n; simpl).
  - destruct e; try discriminate. simpl.
    destruct (Py.lookup "name" d) eqn:E; [|discriminate].
    intros [= <-]. eauto.
  - intros (d & -> & Hn). simpl. now rewrite Hn.
Qed.

(** X9.  Where the lambda of streamlit_app.py returns a list of names,
    [extract_foreign_entities] of streamlit_json.py returns the same list. *)
Theorem foreign_entities_agree (v : value) (ns : list value) :
  App.foreign_entities v = Ok ns -> Json.extract_foreign_entities v = Ok ns.
Proof.
  destruct v; try (simpl; congruence).
  intros H. apply app_foreign_entities_Ok in H.
  unfold Json.extract_foreign_entities.
  induction H as [|e n es ns (d & -> & Hn) _ IH]; cbn [Py.collect];
    [reflexivity|].
  rewrite IH. unfold Py.contains, Py.getitem. rewrite Hn.
  rewrite bool_decide_eq_true_2 by eauto. reflexivity.
Qed.

Lemma foreign_entities_agree_witness :
  App.foreign_entities (VList [VDict [("name", VStr "Acme Corp")]])
  = Ok [VStr "Acme Corp"]
  /\ Json.extract_foreign_entities (VList [VDict [("name", VStr "Acme Corp")]])
     = Ok [VStr "Acme Corp"].
Proof.
  assert (App.foreign_entities (VList [VDict [("name", VStr "Acme Corp")]])
          = Ok [VStr "Acme Corp"]) as Hres by reflexivity.
  split; [exact Hres | exact (foreign_entities_agree _ _ Hres)].
Defined.

(** ** The columns for display *)

Lemma join_cons_nonempty (sep x : string) (l : list string) :
  x <> "" -> Str.join sep (x :: l) <> "".
Proof.
  intros Hx. destruct x as [|c x]; [contradiction|].
  destruct l; simpl; discriminate.
Qed.

Lemma dict_positions_cleaned (es : list value) (d : Json.lobbyist_dict) :
  Py.for_each Json.merge [] es = Ok d ->
  (forall k s, In (k, s) d -> k <> "")
  /\ (forall k s p, In (k, s) d -> p ∈ s -> p <> "").
Proof.
  intros Hd.
  destruct (for_each_merge_represents es [] [] d represents_nil Hd)
    as (nps & _ & _ & Hkeys & Hpos).
  split.
  - intros k s Hin. apply In_keys, Hkeys in Hin as [Hk _]. exact Hk.
  - intros k s p Hin Hp. apply (Hpos k s Hin p) in Hp as [Hkeep _].
    now apply keeps_cleaned in Hkeep as [? _].
Qed.

(** X10.  For the lobbyists [extract_lobbyists] returns, the column
    [lobbyist_names] is empty exactly when there is no lobbyist, the column
    [covered_positions] is "None" when no lobbyist has a position, and
    otherwise it is the joined text of the sorted positions, which is not
    empty. *)
Theorem display_columns (v : value) (res : list Json.lobbyist) :
  Json.extract_lobbyists v = Ok res ->
  (Display.lobbyist_names res = "" <-> res = [])
  /\ ((forall l, In l res -> Json.positions l = ∅) ->
      Display.covered_positions res = "None")
  /\ ((exists l, In l res /\ Json.positions l <> ∅) ->
      Display.covered_positions res = Display.joined_positions res
      /\ Display.joined_positions res <> "").
Proof.
  intros Hres.
  assert ((forall l, In l res -> Json.name l <> "")
          /\ (forall l p, In l res -> p ∈ Json.positions l -> p <> ""))
    as [Hnames Hpos].
  { destruct v as [| | | | |acts|];
      try (injection Hres as <-; split; [intros ? [] | intros ? ? []]).
    apply extract_lobbyists_Ok in Hres as (es & d & _ & Hd & ->).
    apply dict_positions_cleaned in Hd as [Hk Hp]. split.
    - intros l Hl. apply in_map_iff in Hl as ([k s] & <- & Hin). eauto.
    - intros l p Hl. apply in_map_iff in Hl as ([k s] & <- & Hin). eauto. }
  split; [|split].
  - unfold Display.lobbyist_names. split; [|now intros ->].
    destruct res as [|l res]; [reflexivity|]. intros H. exfalso.
    apply (join_cons_nonempty ", " (Json.name l) (map Json.name res));
      [apply Hnames; now left | exact H].
  - intros Hempty. unfold Display.covered_positions, Display.joined_positions.
    assert (Display.all_positions res = []) as ->; [|reflexivity].
    unfold Display.all_positions. clear Hnames Hpos Hres.
    induction res as [|l res IH]; simpl; [reflexivity|].
    rewrite (Hempty l) by now left. rewrite elements_empty. simpl.
    apply IH. intros l' Hl'. apply Hempty. now right.
  - intros (l & Hl & Hne).
    assert (Display.joined_positions res <> "") as Hj.
    { unfold Display.joined_positions.
      destruct (Py.sorted_set (Display.all_positions res)) as [|p ps] eqn:E.
      - apply (proj1 (sorted_set_nil _)) in E. exfalso. apply Hne.
        apply set_eq. intros p. split; [|set_solver]. intros Hp. exfalso.
        assert (In p (Display.all_positions res)) as Hin.
        { unfold Display.all_positions. apply in_concat.
          exists (elements (Json.positions l)). split.
          - apply in_map_iff. eauto.
          - apply list_elem_of_In, elem_of_elements, Hp. }
        rewrite E in Hin. destruct Hin.
      - apply join_cons_nonempty.
        assert (In p (Display.all_positions res)) as Hin
          by (apply In_sorted_set; rewrite E; now left).
        unfold Display.all_positions in Hin.
        apply in_concat in Hin as (ps' & Hps' & Hp).
        apply in_map_iff in Hps' as (l' & <- & Hl').
        apply (Hpos l' p Hl'). now apply elem_of_elements, list_elem_of_In. }
    split; [|exact Hj]. unfold Display.covered_positions.
    destruct (String.eqb_spec (Display.joined_positions res) "");
      [contradiction | reflexivity].
Qed.

Lemma display_columns_witness :
  Json.extract_lobbyists (VList jane_twice)
  = Ok [Json.Lobbyist "Jane Doe" {[ "Senator"; "Advisor" ]}]
  /\ Display.covered_positions
       [Json.Lobbyist "Jane Doe" {[ "Senator"; "Advisor" ]}]
     = Display.joined_positions
         [Json.Lobbyist "Jane Doe" {[ "Senator"; "Advisor" ]}]
  /\ Display.joined_positions
       [Json.Lobbyist "Jane Doe" {[ "Senator"; "Advisor" ]}] <> "".
Proof.
  assert (Json.extract_lobbyists (VList jane_twice)
          = Ok [Json.Lobbyist "Jane Doe" {[ "Senator"; "Advisor" ]}]) as Hres
    by (vm_compute; reflexivity).
  split; [exact Hres|].
  apply (display_columns _ _ Hres).
  exists (Json.Lobbyist "Jane Doe" {[ "Senator"; "Advisor" ]}).
  split; [now left|]. simpl. intros Hempty.
  assert ("Senator" ∈ ({[ "Senator"; "Advisor" ]} : gset string)) as Hin
    by set_solver.
  rewrite Hempty in Hin. set_solver.
Defined.

(** ** What the filters keep *)

Section FilterFacts.

Context {L : Type}.
Implicit Type df : list (row L).

Lemma In_when_chosen {A} (chosen : list A) (mask : row L -> bool) df r :
  r ∈ when_chosen chosen mask df <-> r ∈ df /\ (chosen = [] \/ mask r = true).
Proof.
  destruct chosen as [|x chosen]; simpl.
  - intuition.
  - rewrite select_sublist. intuition discriminate.
Qed.

Lemma isin_true {A} `{EqDecision A} (accepted : list A) (cell : option A) :
  Pd.isin accepted cell = true <-> exists x, cell = Some x /\ x ∈ accepted.
Proof.
  destruct cell as [x|]; simpl.
  - rewrite bool_decide_eq_true. split; [eauto | now intros (? & [= <-] & ?)].
  - split; [discriminate | intros (? & ? & _); discriminate].
Qed.

Lemma foreign_mask_true (fs : list string) (r : row L) :
  existsb (fun entity => bool_decide (entity ∈ foreign_entities r)) fs = true
  <-> exists e, e ∈ fs /\ e ∈ foreign_entities r.
Proof.
  rewrite existsb_exists. split.
  - intros (e & He & Hr). apply bool_decide_eq_true in Hr.
    exists e. now rewrite list_elem_of_In.
  - intros (e & He & Hr). exists e. rewrite <- list_elem_of_In.
    now rewrite bool_decide_eq_true.
Qed.

Lemma In_json_filtered (ys : list Z) (cs rs fs : list string) df r :
  r ∈ json_filtered ys cs rs fs df <->
  r ∈ df
  /\ (ys = [] \/ exists y, filing_year r = Some y /\ y ∈ ys)
  /\ (cs = [] \/ exists c, client_name r = Some c /\ c ∈ cs)
  /\ (rs = [] \/ exists n, registrant_name r = Some n /\ n ∈ rs)
  /\ (fs = [] \/ exists e, e ∈ fs /\ e ∈ foreign_entities r).
Proof.
  unfold json_filtered, by_foreign, by_registrant, by_client, by_year.
  rewrite !In_when_chosen, !isin_true, foreign_mask_true. tauto.
Qed.

(** X11.  A row is shown by streamlit_json.py exactly when it is in the
    table and passes every filter in which something is chosen: its year,
    client and registrant are among the chosen ones, and one of the chosen
    foreign entities is among its own. *)
Theorem json_filtered_rows (ys : list Z) (cs rs fs : list string) df r :
  r ∈ json_filtered ys cs rs fs df <->
  r ∈ df
  /\ (ys = [] \/ exists y, filing_year r = Some y /\ y ∈ ys)
  /\ (cs = [] \/ exists c, client_name r = Some c /\ c ∈ cs)
  /\ (rs = [] \/ exists n, registrant_name r = Some n /\ n ∈ rs)
  /\ (fs = [] \/ exists e, e ∈ fs /\ e ∈ foreign_entities r).
Proof.
  unfold json_filtered.
  unfold by_foreign. rewrite In_when_chosen, foreign_mask_true.
  unfold by_registrant. rewrite In_when_chosen, isin_true.
  unfold by_client. rewrite In_when_chosen, isin_true.
  unfold by_year. rewrite In_when_chosen, isin_true.
  tauto.
Qed.

Lemma select_idempotent (p : row L -> bool) df :
  select p (select p df) = select p df.
Proof.
  unfold select. induction df as [|r df IH]; simpl; [reflexivity|].
  destruct (p r) eqn:Hp; simpl; rewrite ?Hp, IH; reflexivity.
Qed.

Lemma select_is_sublist (p : row L -> bool) df : sublist (select p df) df.
Proof.
  unfold select. induction df as [|r df IH]; simpl; [constructor|].
  destruct (p r); now constructor.
Qed.

(** X12.  A filter only removes rows, keeping the others in their order,
    and applying it twice is applying it once. *)
Theorem filter_narrows (c : choice) df :
  sublist (apply_choice c df) df
  /\ apply_choice c (apply_choice c df) = apply_choice c df.
Proof.
  destruct c as [xs|xs|xs|xs]; simpl;
    unfold by_year, by_client, by_registrant, by_foreign;
    (destruct xs; simpl;
     [split; reflexivity | split; [apply select_is_sublist | apply select_idempotent]]).
Qed.

End FilterFacts.

(** X13.  The same for streamlit_app.py, with the chosen lobbyist among the
    lobbyists of the row when one is chosen. *)
Theorem app_filtered_rows (ys : list Z) (cs rs fs : list string) (l : string)
  (df : list (row (list string))) (r : row (list string)) :
  r ∈ app_filtered ys cs rs fs l df <->
  r ∈ df
  /\ (ys = [] \/ exists y, filing_year r = Some y /\ y ∈ ys)
  /\ (cs = [] \/ exists c, client_name r = Some c /\ c ∈ cs)
  /\ (rs = [] \/ exists n, registrant_name r = Some n /\ n ∈ rs)
  /\ (fs = [] \/ exists e, e ∈ fs /\ e ∈ foreign_entities r)
  /\ (l = "" \/ l ∈ lobbyists r).
Proof.
  unfold app_filtered, by_lobbyist.
  change (by_foreign fs (by_registrant rs (by_client cs (by_year ys df))))
    with (json_filtered ys cs rs fs df).
  destruct l as [|a l]; simpl.
  - rewrite In_json_filtered. intuition.
  - rewrite select_sublist, In_json_filtered, bool_decide_eq_true.
    intuition discriminate.
Qed.

(** ** The options of the sidebar *)

Lemma In_insert_year (x y : Z) (l : list Z) :
  In y (Sidebar.insert_year x l) <-> y = x \/ In y l.
Proof.
  induction l as [|z l IH]; simpl; [intuition|].
  destruct (Z.compare x z) eqn:E; simpl.
  - apply Z.compare_eq in E. subst. intuition.
  - intuition.
  - rewrite IH. intuition.
Qed.

Section Options.

Context {L : Type}.
Implicit Type df : list (row L).

Lemma In_year_options df (y : Z) :
  In y (Sidebar.year_options df) <-> exists r, r ∈ df /\ filing_year r = Some y.
Proof.
  unfold Sidebar.year_options.
  induction df as [|r df IH]; simpl.
  - split; [intros [] | intros (r & Hr & _); inversion Hr].
  - destruct (filing_year r) as [z|] eqn:Hz; simpl.
    + rewrite In_insert_year, IH. split.
      * intros [-> | (r' & Hr' & Hy)].
        -- exists r. split; [apply list_elem_of_here | assumption].
        -- exists r'. split; [now apply list_elem_of_further | assumption].
      * intros (r' & Hr' & Hy). apply elem_of_cons in Hr' as [-> | Hr'].
        -- left. congruence.
        -- right. eauto.
    + rewrite IH. split.
      * intros (r' & Hr' & Hy). exists r'.
        split; [now apply list_elem_of_further | assumption].
      * intros (r' & Hr' & Hy). apply elem_of_cons in Hr' as [-> | Hr'].
        -- congruence.
        -- eauto.
Qed.

Lemma select_nonempty (p : row L -> bool) df r :
  r ∈ df -> p r = true -> select p df <> [].
Proof.
  intros Hr Hp Hnil.
  assert (r ∈ select p df) as Hin by (apply select_sublist; auto).
  rewrite Hnil in Hin. inversion Hin.
Qed.

Lemma increasing_insert_year (y : Z) (l : list Z) :
  Sidebar.increasing_years l -> Sidebar.increasing_years (Sidebar.insert_year y l).
Proof.
  induction l as [|x l IH]; simpl; [auto|].
  intros [Hx Hl]. destruct (Z.compare y x) eqn:E; simpl.
  - auto.
  - rewrite Z.compare_lt_iff in E. split; [|auto].
    constructor; [assumption|].
    eapply Forall_impl; [exact Hx|]. intros z Hz. cbv beta in Hz. lia.
  - rewrite Z.compare_gt_iff in E. split; [|auto].
    apply Forall_forall. intros z Hz.
    apply list_elem_of_In, In_insert_year in Hz as [-> | Hz]; [assumption|].
    rewrite Forall_forall in Hx. apply Hx. now apply list_elem_of_In.
Qed.

(** X14.  The options of the year menu are exactly the years that occur in
    the table, so that a missing year is no option; they are in strictly
    increasing order; and choosing one option alone always leaves at least
    one row. *)
Theorem options_select_rows df :
  (forall y, In y (Sidebar.year_options df) <->
             exists r, r ∈ df /\ filing_year r = Some y)
  /\ Sidebar.increasing_years (Sidebar.year_options df)
  /\ (forall y, In y (Sidebar.year_options df) -> by_year [y] df <> []).
Proof.
  split; [apply In_year_options|]. split.
  - unfold Sidebar.year_options.
    induction (omap filing_year df) as [|y l IH]; simpl; [exact I|].
    now apply increasing_insert_year.
  - intros y Hy. apply In_year_options in Hy as (r & Hr & Hy).
    apply (select_nonempty _ _ r Hr). rewrite Hy. simpl.
    apply bool_decide_eq_true. apply list_elem_of_here.
Qed.

End Options.



(** ** Normal forms of text *)

Lemma lower_char_idempotent (c : ascii) :
  Str.lower_char (Str.lower_char c) = Str.lower_char c.
Proof. destruct c as [[] [] [] [] [] [] [] []]; reflexivity. Qed.

Lemma upper_lower_char_idempotent (c : ascii) :
  Str.upper_char (Str.lower_char (Str.upper_char (Str.lower_char c)))
  = Str.upper_char (Str.lower_char c).
Proof. destruct c as [[] [] [] [] [] [] [] []]; reflexivity. Qed.

Lemma lower_idempotent (s : string) : Str.lower (Str.lower s) = Str.lower s.
Proof.
  induction s as [|c s IH]; simpl; [reflexivity|].
  now rewrite lower_char_idempotent, IH.
Qed.

Lemma normalize_text_idempotent (x : value) :
  Json.normalize_text (Json.normalize_text x) = Json.normalize_text x.
Proof.
  destruct x; try reflexivity. destruct s as [|c s]; simpl; [reflexivity|].
  now rewrite upper_lower_char_idempotent, !lower_idempotent.
Qed.

(** X16.  On a cell that is not a list and whose text, if it is text, is
    within ASCII, deriving the registrant type from a derived registrant
    type changes nothing, in both files, and in streamlit_json.py two
    descriptions within ASCII that differ only in the case of their
    letters have the same type. *)
Theorem registrant_type_normal_form (x : value) :
  Py.is_list x = false ->
  ascii_cell x ->
  Json.registrant_type (Json.registrant_type x) = Json.registrant_type x
  /\ App.registrant_type (App.registrant_type x) = App.registrant_type x
  /\ forall s t, x = VStr s -> Str.is_ascii t = true ->
                 Str.lower s = Str.lower t ->
                 Json.registrant_type (VStr t) = Json.registrant_type x.
Proof.
  intros _ _. unfold Json.registrant_type, App.registrant_type.
  split; [|split].
  - destruct (pd_notna x) eqn:Hx; [|reflexivity].
    assert (pd_notna (Json.normalize_text x) = true) as ->
      by (destruct x; try discriminate; try reflexivity; exact Hx).
    apply normalize_text_idempotent.
  - destruct (pd_notna x) eqn:Hx; [now rewrite Hx | reflexivity].
  - intros s t -> _ Hst. simpl. now rewrite Hst.
Qed.

Lemma registrant_type_normal_form_witness :
  Py.is_list (VStr "LAW firm") = false
  /\ Json.registrant_type (Json.registrant_type (VStr "LAW firm"))
     = Json.registrant_type (VStr "LAW firm")
  /\ Json.registrant_type (VStr "law FIRM")
     = Json.registrant_type (VStr "LAW firm").
Proof.
  assert (ascii_cell (VStr "LAW firm")) as Hascii
    by (intros s [= <-]; reflexivity).
  destruct (registrant_type_normal_form (VStr "LAW firm") eq_refl Hascii)
    as (H1 & _ & H3).
  split; [reflexivity|]. split; [exact H1|].
  exact (H3 "LAW firm" "law FIRM" eq_refl eq_refl eq_refl).
Defined.

Lemma lstrip_head (s : string) :
  match Str.lstrip s with
  | EmptyString => True
  | String c _ => Str.isspace c = false
  end.
Proof.
  induction s as [|c s IH]; simpl; [exact I|].
  destruct (Str.isspace c) eqn:E; [exact IH | exact E].
Qed.

Lemma rstrip_head (c : ascii) (s : string) :
  Str.isspace c = false -> exists r, Str.rstrip (String c s) = String c r.
Proof.
  intros Hc. simpl. destruct (Str.rstrip s); [rewrite Hc|]; eauto.
Qed.

Lemma rstrip_idempotent (s : string) :
  Str.rstrip (Str.rstrip s) = Str.rstrip s.
Proof.
  induction s as [|c s IH]; simpl; [reflexivity|].
  destruct (Str.rstrip s) as [|c' r] eqn:E.
  - destruct (Str.isspace c) eqn:Hc; simpl; [reflexivity | now rewrite Hc].
  - simpl. simpl in IH. now rewrite IH.
Qed.

Lemma strip_idempotent (s : string) : Str.strip (Str.strip s) = Str.strip s.
Proof.
  unfold Str.strip. pose proof (lstrip_head s) as Hh.
  destruct (Str.lstrip s) as [|c t]; [reflexivity|].
  destruct (rstrip_head c t Hh) as [r Hr]. rewrite Hr.
  cbn [Str.lstrip]. rewrite Hh, <- Hr. apply rstrip_idempotent.
Qed.

Lemma rstrip_last (s : string) :
  forall t c, Str.rstrip s = t +:+ String c "" -> Str.isspace c = false.
Proof.
  induction s as [|a s IH]; simpl; intros t c.
  - destruct t; discriminate.
  - destruct (Str.rstrip s) as [|b r] eqn:E.
    + destruct (Str.isspace a) eqn:Ha; [destruct t; discriminate|].
      destruct t as [|? [|? ?]]; simpl; intros [= <-]; try assumption.
    + destruct t as [|a' t]; simpl; [intros [= _ ?]; discriminate|].
      intros [= _ Ht]. now apply (IH t c).
Qed.

(** X17.  A display name has no white space at its start or at its end,
    and trimming it again leaves it as it is. *)
Theorem display_name_stripped (e : value) (n : string) :
  display_name e = Ok n ->
  Str.strip n = n
  /\ (forall c t, n = String c t -> Str.isspace c = false)
  /\ (forall t c, n = t +:+ String c "" -> Str.isspace c = false).
Proof.
  unfold display_name. intros Hn.
  destruct (Py.getitem e "lobbyist") as [p|]; run_in Hn; [|discriminate].
  destruct (Py.get p "first_name" (VStr "")) as [f|]; run_in Hn; [|discriminate].
  destruct (Py.get p "last_name" (VStr "")) as [l|]; run_in Hn; [|discriminate].
  injection Hn as <-. split; [apply strip_idempotent|]. split.
  - intros c t Hs. unfold Str.strip in Hs.
    pose proof (lstrip_head (Py.str f +:+ " " +:+ Py.str l)) as Hh.
    destruct (Str.lstrip _) as [|c' t']; [discriminate Hs|].
    destruct (rstrip_head c' t' Hh) as [r Hr]. rewrite Hr in Hs.
    now injection Hs as <- _.
  - intros t c Hs. unfold Str.strip in Hs. now apply rstrip_last in Hs.
Qed.

Lemma display_name_stripped_witness :
  display_name (entry "  Jane" "Doe " VNone) = Ok "Jane Doe"
  /\ Str.strip "Jane Doe" = "Jane Doe".
Proof.
  assert (display_name (entry "  Jane" "Doe " VNone) = Ok "Jane Doe") as Hn
    by reflexivity.
  split; [exact Hn | exact (proj1 (display_name_stripped _ _ Hn))].
Defined.

(** ** Counts of an exploded column *)

(** X18.  The count of a value in an exploded column is the number of its
    occurrences in the lists of the column, and a value that does not
    occur has no count. *)
Theorem exploded_count {A} `{Countable A} (col : list (list A)) (x : A) :
  Pd.value_counts (Pd.dropna (Pd.explode col)) !! x
  = match length (List.filter (fun y => bool_decide (y = x)) (concat col)) with
    | O => None
    | S n => Some (S n)
    end.
Proof.
  rewrite dropna_explode, value_counts_lookup. unfold Pd.occurrences.
  assert (forall l : list A,
            length (List.filter (fun c => bool_decide (c = Some x)) (map Some l))
            = length (List.filter (fun y => bool_decide (y = x)) l)) as ->;
    [|reflexivity].
  induction l as [|y l IH]; simpl; [reflexivity|].
  destruct (decide (y = x)) as [->|Hne].
  - rewrite !bool_decide_eq_true_2 by reflexivity. simpl. now rewrite IH.
  - rewrite !bool_decide_eq_false_2 by congruence. exact IH.
Qed.

(** ** The years of streamlit_app.py *)

Lemma astype_int_cells (to_int : list value -> value -> result Z)
  (c l : list value) (zs : list Z) :
  Forall2 (fun v z => (if pd_notna v then to_int c v else Raise ValueError)
                      = Ok z) l zs ->
  length zs = length l /\ Forall (fun v => pd_notna v = true) l.
Proof.
  induction 1 as [|v z vs zs Hv _ (IH1 & IH2)]; simpl.
  - split; constructor.
  - destruct (pd_notna v) eqn:E; [|discriminate].
    split; [now rewrite IH1 | now constructor].
Qed.

(** X19.  When the cast of the years of streamlit_app.py returns, the
    document is not empty, every filing has a year that is neither absent
    nor null, and there is one integer for each filing: a single filing
    without a year stops the load, whatever the cast makes of the years
    that are there. *)
Theorem app_years_all_present (to_int : list value -> value -> result Z)
  (filings : list filing) (zs : list Z) :
  app_filing_year to_int filings = Ok zs ->
  filings <> []
  /\ length zs = length filings
  /\ Forall (fun f => exists v, Py.lookup "filing_year" f = Some v
                                /\ pd_notna v = true) filings.
Proof.
  unfold app_filing_year.
  destruct (column "filing_year" filings) as [col|] eqn:Hcol;
    cbn [mbind result_bind]; [|discriminate].
  intros Hzs. split; [intros ->; discriminate Hcol|].
  apply column_Ok in Hcol. unfold astype_int in Hzs. apply mapM_Ok in Hzs.
  apply astype_int_cells in Hzs as [Hlen Hcells]. subst col.
  rewrite length_map in Hlen. split; [exact Hlen|].
  apply Forall_forall. intros f Hf. rewrite Forall_forall in Hcells.
  assert (pd_notna (default NaN (Py.lookup "filing_year" f)) = true) as Hv.
  { apply Hcells. apply list_elem_of_In.
    apply (in_map (fun f => default NaN (Py.lookup "filing_year" f))).
    now apply list_elem_of_In. }
  destruct (Py.lookup "filing_year" f) as [v|]; [eauto | discriminate Hv].
Qed.

Lemma app_years_all_present_witness :
  app_filing_year takes_integers
    [[("filing_year", VInt 2023)]; [("filing_year", VInt 2024)]]
  = Ok [2023%Z; 2024%Z]
  /\ length [2023%Z; 2024%Z] = 2.
Proof.
  assert (app_filing_year takes_integers
            [[("filing_year", VInt 2023)]; [("filing_year", VInt 2024)]]
          = Ok [2023%Z; 2024%Z]) as Hres by reflexivity.
  split; [exact Hres|].
  exact (proj1 (proj2 (app_years_all_present _ _ _ Hres))).
Defined.

(** ** The activities the loops take *)




(** ** Counts of a column *)

(** X21.  [value_counts] lists a value with the count [n] exactly when [n]
    is the number of cells that hold the value and is not zero: missing
    cells are not counted and no value is listed with zero. *)
Theorem value_counts_occurrences {A} `{Countable A} (col : list (option A))
  (x : A) (n : nat) :
  Pd.value_counts col !! x = Some n <-> n = Pd.occurrences x col /\ 0 < n.
Proof.
  rewrite value_counts_lookup. destruct (Pd.occurrences x col) as [|m].
  - split; [discriminate | lia].
  - split; [intros [= <-]; lia | now intros [-> _]].
Qed.

(** ** Foreign entities that are objects *)

(** X22.  On a list of entries that are all JSON objects,
    [extract_foreign_entities] of streamlit_json.py returns, and the list
    holds exactly the names of the entries that have one, so it is not
    longer than the list of entries. *)
Theorem json_foreign_entities_objects (es : list value) :
  Forall is_object es ->
  exists ns,
    Json.extract_foreign_entities (VList es) = Ok ns
    /\ (forall n, In n ns <->
                  exists d, In (VDict d) es /\ Py.lookup "name" d = Some n)
    /\ length ns <= length es.
Proof.
  intros Hes.
  assert (exists ds, es = map VDict ds) as [ds ->].
  { induction Hes as [|e es [d ->] _ [ds ->]]; [now exists [] |].
    now exists (d :: ds). }
  exists (omap (Py.lookup "name") ds).
  split; [apply json_foreign_entities_skip|]. split.
  - intros n. rewrite <- list_elem_of_In, list_elem_of_omap. split.
    + intros (d & Hd & Hn). exists d. split; [|assumption].
      apply in_map. now apply list_elem_of_In.
    + intros (d & Hd & Hn). exists d. split; [|assumption].
      apply in_map_iff in Hd as (d' & [= <-] & Hd). now apply list_elem_of_In.
  - rewrite length_map. clear Hes.
    induction ds as [|d ds IH]; [reflexivity|]. cbn [omap list_omap length].
    destruct (Py.lookup "name" d); cbn [length]; lia.
Qed.

Lemma json_foreign_entities_objects_witness :
  exists ns,
    Json.extract_foreign_entities
      (VList [VDict [("name", VStr "Acme Corp")]; VDict [("id", VInt 1)]])
    = Ok ns
    /\ length ns <= 2.
Proof.
  destruct (json_foreign_entities_objects
              [VDict [("name", VStr "Acme Corp")]; VDict [("id", VInt 1)]])
    as (ns & Hns & _ & Hlen).
  - repeat constructor; eexists; reflexivity.
  - exists ns. split; [exact Hns | exact Hlen].
Defined.

(** ** Instances on the example documents *)

Lemma jane_twice_visited :
  visited jane_twice
  = Ok [entry "Jane" "Doe" (VStr "Senator"); entry "Jane" "Doe" (VStr "Advisor")].
Proof. reflexivity. Qed.

Lemma jane_entry_well_formed (cp : string) :
  well_formed_entry (entry "Jane" "Doe" (VStr cp)).
Proof.
  do 2 eexists. split; [reflexivity|]. split; [reflexivity|].
  right. eexists. reflexivity.
Qed.

Lemma app_positions_return_iff_witness :
  returns (App.extract_covered_positions (VList jane_twice)).
Proof.
  apply (app_positions_return_iff jane_twice).
  eexists. split; [exact jane_twice_visited|].
  repeat constructor; eexists; reflexivity.
Defined.

Lemma json_lobbyists_return_iff_witness :
  returns (Json.extract_lobbyists (VList jane_twice)).
Proof.
  apply (json_lobbyists_return_iff jane_twice).
  eexists. split; [exact jane_twice_visited|].
  repeat constructor; apply jane_entry_well_formed.
Defined.

Lemma app_lobbyists_return_iff_witness :
  returns (App.extract_lobbyists (VList jane_twice)).
Proof.
  apply (app_lobbyists_return_iff jane_twice).
  eexists. split; [exact jane_twice_visited|].
  repeat constructor; do 2 eexists; split; reflexivity.
Defined.

Lemma json_filtered_rows_witness :
  Row (Some 2023%Z) (Some "Acme Corp") (Some "Law Firm LLP") ["Acme Holdings"]
      ["Jane Doe"; "John Roe"]
  ∈ json_filtered [2023%Z] [] ["Law Firm LLP"] ["Initech"; "Acme Holdings"]
      sample_table.
Proof.
  apply json_filtered_rows. split; [apply list_elem_of_here|].
  split; [right; eexists; split; [reflexivity | apply list_elem_of_here]|].
  split; [now left|].
  split; [right; eexists; split; [reflexivity | apply list_elem_of_here]|].
  right. exists "Acme Holdings".
  split; [apply list_elem_of_further, list_elem_of_here | apply list_elem_of_here].
Defined.

Lemma app_filtered_rows_witness :
  Row None (Some "Globex") None [] ["John Roe"]
  ∈ app_filtered [] ["Globex"] [] [] "John Roe" sample_table.
Proof.
  apply app_filtered_rows.
  split; [apply list_elem_of_further, list_elem_of_here|].
  split; [now left|].
  split; [right; eexists; split; [reflexivity | apply list_elem_of_here]|].
  split; [now left|]. split; [now left|].
  right. apply list_elem_of_here.
Defined.

Lemma options_select_rows_witness :
  In 2023%Z (Sidebar.year_options sample_table)
  /\ by_year [2023%Z] sample_table <> [].
Proof.
  assert (In 2023%Z (Sidebar.year_options sample_table)) as Hin
    by (vm_compute; tauto).
  split; [exact Hin|].
  destruct (options_select_rows sample_table) as (_ & _ & Hy).
  exact (Hy 2023%Z Hin).
Defined.

Lemma value_counts_occurrences_witness :
  Pd.value_counts [Some 2023%Z; None; Some 2023%Z] !! 2023%Z = Some 2.
Proof.
  apply value_counts_occurrences. split; [reflexivity | lia].
Defined.
